(** * Weekly trend / review-score report: the data pipeline of
      [scripts/make_portfolio_report.py]

    The script reads two CSV tables (reviews and a demand-trend index),
    buckets both by ISO week, inner-joins the two weekly aggregates,
    computes Pearson and Spearman correlations and lays the results out in
    a PDF.  This file embeds the two font resolvers, the data pipeline,
    the cells of the report that interpolate computed values and the order
    of the effects of a run, and proves the properties the specification
    states about them and further properties read off the code.

    Arithmetic model.  Cell values are decimal literals, hence rationals:
    numeric cells are [Q], a missing cell (NaN) is [None], and every mean
    is kept in lowest terms ([Qred]) so that equal values are equal terms.
    Correlation coefficients need a square root and live in [R].  The
    rounding of IEEE doubles is outside the model: what is stated below
    about a mean or a coefficient is stated only where the value is exact
    in doubles too, or concerns which rows enter it, not its last bits. *)

From Stdlib Require Import ZArith QArith Qreduction Reals Qreals.
From Stdlib Require Import String Ascii Bool Arith Lia.
From Stdlib Require Import List Permutation Sorted.
Import ListNotations.

(** ** Errors

    [main] has no [try]; whatever a library call raises ends the run.  The
    constructors name the exception classes the calls used here raise. *)

Inductive error : Type :=
| ParseError        (* pd.to_datetime on text that is no date *)
| AttributeError    (* .dt on a column read_csv left as text *)
| IntCastingNaN     (* .astype(int) on a column holding <NA> *)
| KeyError          (* a column label that the frame does not have *)
| TypeError         (* mean of a text column *)
| ValueError.       (* pearsonr on fewer than two observations *)

Inductive result (A : Type) : Type :=
| Ok (a : A)
| Raise (e : error).

Arguments Ok {A} a.
Arguments Raise {A} e.

Definition bind {A B : Type} (r : result A) (k : A -> result B) : result B :=
  match r with
  | Ok a => k a
  | Raise e => Raise e
  end.

Notation "x <- c ;; k" := (bind c (fun x => k))
  (at level 61, c at next level, right associativity).

(** ** The proleptic Gregorian calendar and ISO-8601 weeks

    [.dt.isocalendar()] gives, for every timestamp, the ISO year, week and
    weekday of its date.  The computation below is the one of
    [datetime.date.isocalendar]: day ordinals, the Monday of ISO week 1,
    and the two year-boundary corrections. *)

Module Calendar.

Local Open Scope Z_scope.

Record date : Type := mkDate { year : Z; month : Z; day : Z }.

Definition is_leap (y : Z) : bool :=
  (y mod 4 =? 0) && (negb (y mod 100 =? 0) || (y mod 400 =? 0)).

Definition days_before_year (y : Z) : Z :=
  let p := y - 1 in p * 365 + p / 4 - p / 100 + p / 400.

Definition days_before_month_common : list Z :=
  [0; 31; 59; 90; 120; 151; 181; 212; 243; 273; 304; 334].

Definition days_before_month (y m : Z) : Z :=
  nth (Z.to_nat (m - 1)) days_before_month_common 0
  + (if (2 <? m) && is_leap y then 1 else 0).

Definition days_in_month (y m : Z) : Z :=
  if m =? 2 then (if is_leap y then 29 else 28)
  else if (m =? 4) || (m =? 6) || (m =? 9) || (m =? 11) then 30
  else 31.

Definition valid_date (d : date) : bool :=
  (1 <=? year d) && (1 <=? month d) && (month d <=? 12)
  && (1 <=? day d) && (day d <=? days_in_month (year d) (month d)).

Definition ymd2ord (y m d : Z) : Z :=
  days_before_year y + days_before_month y m + d.

Definition ordinal (d : date) : Z := ymd2ord (year d) (month d) (day d).

(** Ordinal of the Monday that starts ISO week 1 of year [y]: the week
    that holds the year's first Thursday. *)
Definition isoweek1monday (y : Z) : Z :=
  let firstday := ymd2ord y 1 1 in
  let firstweekday := (firstday + 6) mod 7 in
  let week1monday := firstday - firstweekday in
  if 3 <? firstweekday then week1monday + 7 else week1monday.

(** (ISO year, ISO week, ISO weekday). *)
Definition isocalendar (d : date) : Z * Z * Z :=
  let y := year d in
  let today := ordinal d in
  let week := (today - isoweek1monday y) / 7 in
  let wday := (today - isoweek1monday y) mod 7 in
  if week <? 0 then
    let y' := y - 1 in
    ((y', (today - isoweek1monday y') / 7 + 1),
     (today - isoweek1monday y') mod 7 + 1)
  else if (52 <=? week) && (isoweek1monday (y + 1) <=? today) then
    ((y + 1, 1), wday + 1)
  else
    ((y, week + 1), wday + 1).

Definition isocal_year (d : date) : Z := fst (fst (isocalendar d)).
Definition isocal_week (d : date) : Z := snd (fst (isocalendar d)).

End Calendar.

Import Calendar.

(** ** Tables

    A date cell of a CSV file is text: a date ([DateText]), text that is no
    date ([Garbage]) or nothing ([Blank], read as NaT).  A numeric cell is a
    rational or missing. *)

Inductive date_cell : Type :=
| DateText (d : date)
| Garbage
| Blank.

(** A row of the reviews file; only the columns ["at"] and ["score"] are
    read by the pipeline. *)
Record review : Type := mkReview { r_at : date_cell; r_score : option Q }.

Inductive column : Type :=
| CNum (vs : list (option Q))          (* int64 / float64 *)
| CObj (vs : list string)              (* object (text) *)
| CDatetime (vs : list (option date)). (* datetime64 *)

Definition frame : Type := list (string * column).

(** The trend file: its ["date"] column and its other columns in file
    order.  (The position of ["date"] itself plays no role: from line 94
    on it is a datetime column, never numeric and never the preferred
    name.) *)
Record trend_source : Type :=
  mkTrend { t_date : list date_cell; t_cols : frame }.

(** The weekly key (iso_year, iso_week). *)
Definition key : Type := (Z * Z)%type.

Definition key_eqb (a b : key) : bool :=
  (fst a =? fst b)%Z && (snd a =? snd b)%Z.

Definition key_ltb (a b : key) : bool :=
  (fst a <? fst b)%Z || ((fst a =? fst b)%Z && (snd a <? snd b)%Z).

(** *** Timestamps to weekly keys *)

Definition has_garbage (cells : list date_cell) : bool :=
  existsb (fun c => match c with Garbage => true | _ => false end) cells.

Definition cell_date (c : date_cell) : option date :=
  match c with DateText d => Some d | _ => None end.

(** [pd.read_csv(..., parse_dates=["at"])]: a column with a cell that does
    not parse is handed back as text, and [.dt] on it raises.  (A reviews
    file without any row is outside the model: its column is handed back
    as text too.) *)
Definition read_csv_parse_dates (cells : list date_cell)
  : result (list (option date)) :=
  if has_garbage cells then Raise AttributeError else Ok (map cell_date cells).

(** [pd.to_datetime(trend["date"])] raises on a cell that does not parse. *)
Definition to_datetime (cells : list date_cell) : result (list (option date)) :=
  if has_garbage cells then Raise ParseError else Ok (map cell_date cells).

(** [.dt.isocalendar().year.astype(int)] and [.week.astype(int)], taken
    together: NaT gives <NA>, which [astype(int)] refuses. *)
Fixpoint iso_keys (ds : list (option date)) : result (list key) :=
  match ds with
  | [] => Ok []
  | None :: _ => Raise IntCastingNaN
  | Some d :: t =>
      ks <- iso_keys t ;; Ok ((isocal_year d, isocal_week d) :: ks)
  end.

(** *** groupby / agg *)

(** The group labels of [groupby([...])] with its default [sort=True]: the
    distinct keys in ascending order. *)
Fixpoint insert_key (k : key) (ks : list key) : list key :=
  match ks with
  | [] => [k]
  | h :: t =>
      if key_ltb k h then k :: ks
      else if key_eqb k h then ks
      else h :: insert_key k t
  end.

Definition group_keys (ks : list key) : list key :=
  fold_right insert_key [] ks.

(** The values of the rows whose key is [k]. *)
Definition group {A : Type} (k : key) (keyed : list (key * A)) : list A :=
  map snd (filter (fun p => key_eqb (fst p) k) keyed).

Definition present (vs : list (option Q)) : list Q :=
  flat_map (fun v => match v with Some q => [q] | None => [] end) vs.

Definition Qsum (qs : list Q) : Q := fold_right Qplus 0%Q qs.

(** The ["mean"] reducer skips missing values; a group with none left has
    mean NaN. *)
Definition mean (vs : list (option Q)) : option Q :=
  match present vs with
  | [] => None
  | qs => Some (Qred (Qsum qs / inject_Z (Z.of_nat (length qs))))
  end.

(** The ["size"] reducer counts rows. *)
Definition size {A : Type} (vs : list A) : nat := length vs.

Record weekly_review : Type := mkWR {
  wr_key : key;
  wr_avg_score : option Q;
  wr_review_count : nat
}.

Record weekly_trend : Type := mkWT {
  wt_key : key;
  wt_trend_mean : option Q
}.

(** Lines 88-92. *)
Definition agg_reviews (keyed : list (key * option Q)) : list weekly_review :=
  map (fun k => mkWR k (mean (group k keyed)) (size (group k keyed)))
      (group_keys (map fst keyed)).

Definition weekly_reviews (reviews : list review) : result (list weekly_review) :=
  ds <- read_csv_parse_dates (map r_at reviews) ;;
  ks <- iso_keys ds ;;
  Ok (agg_reviews (combine ks (map r_score reviews))).

(** *** The trend frame and its metric column *)

(** [df[name] = col]: an existing column is replaced where it stands, a
    new one is appended. *)
Fixpoint set_column (name : string) (c : column) (df : frame) : frame :=
  match df with
  | [] => [(name, c)]
  | (n, c') :: t =>
      if String.eqb n name then (name, c) :: t
      else (n, c') :: set_column name c t
  end.

Definition columns (df : frame) : list string := map fst df.

Fixpoint lookup (name : string) (df : frame) : option column :=
  match df with
  | [] => None
  | (n, c) :: t => if String.eqb n name then Some c else lookup name t
  end.

Definition int_column (zs : list Z) : column :=
  CNum (map (fun z => Some (inject_Z z)) zs).

(** The frame [trend] as it stands after lines 94-96. *)
Definition trend_frame (src : trend_source) (ds : list (option date))
           (ks : list key) : frame :=
  set_column "iso_week" (int_column (map snd ks))
    (set_column "iso_year" (int_column (map fst ks))
       (set_column "date" (CDatetime ds) (t_cols src))).

Definition is_number (c : column) : bool :=
  match c with CNum _ => true | _ => false end.

(** Line 98: [trend.select_dtypes(include=[np.number]).columns.tolist()]. *)
Definition numeric_cols (df : frame) : list string :=
  columns (filter (fun p => is_number (snd p)) df).

Definition preferred : string := "전체".

(** Line 99. *)
Definition trend_metric_col (df : frame) : option string :=
  if existsb (String.eqb preferred) (columns df) then Some preferred
  else match numeric_cols df with
       | c :: _ => Some c
       | [] => None
       end.

(** Lines 101-105.  A label that is [None] or not in the frame is a
    [KeyError]; the mean of a text column is a [TypeError]. *)
Definition agg_trend (ks : list key) (metric : option string) (df : frame)
  : result (list weekly_trend) :=
  match metric with
  | None => Raise KeyError
  | Some c =>
      match lookup c df with
      | None => Raise KeyError
      | Some (CNum vs) =>
          Ok (map (fun k => mkWT k (mean (group k (combine ks vs))))
                  (group_keys ks))
      | Some _ => Raise TypeError
      end
  end.

Record trend_weekly : Type := mkTW {
  tw_metric : option string;       (* trend_metric_col *)
  tw_rows : list weekly_trend      (* weekly_trend *)
}.

Definition weekly_trend_of (src : trend_source) : result trend_weekly :=
  ds <- to_datetime (t_date src) ;;
  ks <- iso_keys ds ;;
  let df := trend_frame src ds ks in
  let metric := trend_metric_col df in
  rows <- agg_trend ks metric df ;;
  Ok (mkTW metric rows).

(** The trend file as [read_csv] hands it over on line 84: its ["date"]
    column, when it has one, and its other columns. *)
Record trend_file : Type :=
  mkFile { f_date : option (list date_cell); f_cols : frame }.

(** Lines 94-105 on such a file: [trend["date"]] raises KeyError when the
    file has no column of that name. *)
Definition load_trend (f : trend_file) : result trend_weekly :=
  match f_date f with
  | None => Raise KeyError
  | Some cells => weekly_trend_of (mkTrend cells (f_cols f))
  end.

(** *** The join *)

Record merged_row : Type := mkRow {
  iso_year : Z;
  iso_week : Z;
  avg_score : option Q;
  review_count : nat;
  trend_mean : option Q;
  week_index : Z
}.

(** Line 107: [merge(..., on=["iso_year","iso_week"], how="inner")]; every
    left row is paired with every right row of the same key, in the order
    of the left rows. *)
Definition merge (l : list weekly_review) (r : list weekly_trend)
  : list (weekly_review * weekly_trend) :=
  flat_map (fun a =>
              map (fun b => (a, b))
                  (filter (fun b => key_eqb (wr_key a) (wt_key b)) r)) l.

(** Line 108. *)
Definition week_index_of (y w : Z) : Z := (y * 100 + w)%Z.

Definition merged_row_of (p : weekly_review * weekly_trend) : merged_row :=
  let (a, b) := p in
  mkRow (fst (wr_key a)) (snd (wr_key a))
        (wr_avg_score a) (wr_review_count a) (wt_trend_mean b)
        (week_index_of (fst (wr_key a)) (snd (wr_key a))).

Definition merged_of (l : list weekly_review) (r : list weekly_trend)
  : list merged_row :=
  map merged_row_of (merge l r).

Record joined : Type := mkJoined {
  j_metric : option string;
  j_rows : list merged_row
}.

(** Lines 83-108. *)
Definition merged (reviews : list review) (src : trend_source) : result joined :=
  wr <- weekly_reviews reviews ;;
  tw <- weekly_trend_of src ;;
  Ok (mkJoined (tw_metric tw) (merged_of wr (tw_rows tw))).

(** ** The statistics step (lines 110-112)

    [scipy.stats.pearsonr] and [scipy.stats.spearmanr] are modelled from
    their documented behaviour.  A coefficient is NaN or a real number.  A
    significance value is the tail probability of a named distribution and
    is kept as that description: which distribution, its parameter and the
    statistic it is evaluated at. *)

Inductive fval : Type :=
| NaN
| Fin (r : R).

Inductive pval : Type :=
| PNaN
| POne                            (* exactly 1.0 *)
| PBeta (n : nat) (r : R)         (* two-sided, Beta(n/2-1, n/2-1) on [-1,1] *)
| PStudent (dof : nat) (rs : R).  (* two-sided, Student t with dof degrees;
                                     NaN for dof = 0 *)

(** [(x == x[0]).all()]; NaN equals nothing, not even itself. *)
Definition is_constant (x : list (option Q)) : bool :=
  match x with
  | Some x0 :: _ =>
      forallb (fun v => match v with
                        | Some q => Qeq_bool q x0
                        | None => false
                        end) x
  | None :: _ => false
  | [] => true
  end.

(** The values of a series without NaN. *)
Fixpoint finite (x : list (option Q)) : option (list Q) :=
  match x with
  | [] => Some []
  | None :: _ => None
  | Some q :: t =>
      match finite t with
      | Some qs => Some (q :: qs)
      | None => None
      end
  end.

Definition Qmean (qs : list Q) : Q :=
  Qsum qs / inject_Z (Z.of_nat (length qs)).

Definition center (qs : list Q) : list Q :=
  map (fun q => q - Qmean qs) qs.

Definition dot (a b : list Q) : Q :=
  Qsum (map (fun p => fst p * snd p) (combine a b)).

Definition clip (r : R) : R := Rmax (-1) (Rmin 1 r).

(** The product-moment coefficient of two centred series, clipped to
    [-1, 1] as both library functions do. *)
Definition corr (xs ys : list Q) : R :=
  let xm := center xs in
  let ym := center ys in
  clip (Q2R (dot xm ym) / (sqrt (Q2R (dot xm xm)) * sqrt (Q2R (dot ym ym)))).

Definition Qsign (q : Q) : Z := Z.sgn (Qnum q).

(** The two-observation case of [pearsonr]:
    [sign(x[1] - x[0]) * sign(y[1] - y[0])], with significance 1 unless
    the coefficient is NaN. *)
Definition sign_product (x y : list (option Q)) : fval :=
  match x, y with
  | [Some x0; Some x1], [Some y0; Some y1] =>
      Fin (IZR (Qsign (x1 - x0) * Qsign (y1 - y0)))
  | _, _ => NaN
  end.

Definition pearsonr (x y : list (option Q)) : result (fval * pval) :=
  let n := length x in
  if negb (n =? length y) then Raise ValueError
  else if n <? 2 then Raise ValueError
  else if is_constant x || is_constant y then Ok (NaN, PNaN)
  else if n =? 2
       then Ok (sign_product x y,
                match sign_product x y with NaN => PNaN | Fin _ => POne end)
  else match finite x, finite y with
       | Some xs, Some ys => Ok (Fin (corr xs ys), PBeta n (corr xs ys))
       | _, _ => Ok (NaN, PNaN)
       end.

Definition Qltb (a b : Q) : bool :=
  match a ?= b with Lt => true | _ => false end.

(** [rankdata] with its default method: ties share the average of the
    ranks they span. *)
Definition rank_in (xs : list Q) (v : Q) : Q :=
  inject_Z (Z.of_nat (length (filter (fun x => Qltb x v) xs)))
  + (inject_Z (Z.of_nat (length (filter (fun x => Qeq_bool x v) xs))) + 1) / 2.

Definition rankdata (xs : list Q) : list Q := map (rank_in xs) xs.

Definition spearmanr (a b : list (option Q)) : result (fval * pval) :=
  let n := length a in
  if n <=? 1 then Ok (NaN, PNaN)
  else if is_constant a || is_constant b then Ok (NaN, PNaN)
  else match finite a, finite b with
       | Some xs, Some ys =>
           let rs := corr (rankdata xs) (rankdata ys) in
           Ok (Fin rs, PStudent (n - 2) rs)
       | _, _ => Ok (NaN, PNaN)
       end.

Record stats : Type := mkStats {
  pear_r : fval; pear_p : pval;
  spear_r : fval; spear_p : pval
}.

Definition statistics (m : list merged_row) : result stats :=
  let x := map trend_mean m in
  let y := map avg_score m in
  p <- pearsonr x y ;;
  s <- spearmanr x y ;;
  Ok (mkStats (fst p) (snd p) (fst s) (snd s)).

(** ** The PDF font resolver (lines 61-71)

    The file system is what [os.path.exists] answers; the font registry of
    the PDF library is the list of (alias, file) pairs registered so far.
    A font file that exists is taken to load. *)

Definition registry : Type := list (string * string).

Definition registerFont (alias file : string) (reg : registry) : registry :=
  (alias, file) :: reg.

Definition ttf_candidates : list string :=
  ["/usr/share/fonts/truetype/nanum/NanumGothic.ttf";
   "/usr/share/fonts/truetype/nanum/NanumGothicBold.ttf";
   "/usr/share/fonts/truetype/noto/NotoSansCJK-Regular.ttc"]%string.

(** The loop of lines 67-71 over the paths still to try. *)
Fixpoint register_first (path_exists : string -> bool) (ps : list string)
         (reg : registry) : string * registry :=
  match ps with
  | [] => ("Helvetica"%string, reg)
  | p :: rest =>
      if path_exists p then ("KFont"%string, registerFont "KFont" p reg)
      else register_first path_exists rest reg
  end.

Definition register_korean_font_reportlab (path_exists : string -> bool)
           (reg : registry) : string * registry :=
  register_first path_exists ttf_candidates reg.

(** ** The cells of the report that show computed values *)

Definition py_str (o : option string) : string :=
  match o with Some s => s | None => "None" end.

(** Line 170, second cell. *)
Definition data_cell (metric : option string) : string :=
  ("리뷰 130K+ (score, at, content) / 주별 트렌드 지수(‘"
   ++ py_str metric ++ "’ 기준)")%string.

(** Lines 121 and 131, the legend and axis label. *)
Definition trend_label (metric : option string) : string :=
  ("주별 트렌드 지수(" ++ py_str metric ++ ")")%string.

(** An f-string is a sequence of literal text and formatted values;
    [{v:.3f}] and [{p:.2e}] print a NaN as the text nan. *)
Inductive piece : Type :=
| Lit (s : string)
| Fixed3 (v : fval)
| Sci2 (p : pval).

Definition prints_nan (c : piece) : bool :=
  match c with
  | Fixed3 NaN => true
  | Sci2 PNaN => true
  | Sci2 (PStudent O _) => true
  | _ => false
  end.

(** Lines 206-207. *)
Definition pearson_cell (s : stats) : list piece :=
  [Fixed3 (pear_r s); Lit " (p="; Sci2 (pear_p s); Lit ")"].

Definition spearman_cell (s : stats) : list piece :=
  [Fixed3 (spear_r s); Lit " (p="; Sci2 (spear_p s); Lit ")"].

Record document : Type := mkDoc {
  doc_font : string;
  doc_data_cell : string;
  doc_trend_label : string;
  doc_pearson : list piece;
  doc_spearman : list piece
}.

(** [main], as far as computed values reach the report.  The outcome is
    the document and the font registry, or the exception that ended the
    run. *)
Definition main (path_exists : string -> bool) (reg : registry)
           (reviews : list review) (src : trend_source)
  : result (document * registry) :=
  j <- merged reviews src ;;
  s <- statistics (j_rows j) ;;
  let (font_name, reg') := register_korean_font_reportlab path_exists reg in
  Ok (mkDoc font_name (data_cell (j_metric j)) (trend_label (j_metric j))
            (pearson_cell s) (spearman_cell s), reg').

(** ** The chart font resolver (lines 35-59)

    The host is what the function can observe: the font names the chart
    library's manager lists at entry, whether the two provisioning
    commands end with status 0, and the names the manager lists when the
    function looks again after the reload (the same names when the reload
    does not replace the manager).  [lower] is [str.lower]. *)

Definition candidates : list string :=
  ["NanumGothic"; "Malgun Gothic"; "AppleGothic"; "Noto Sans CJK KR";
   "NotoSansCJKkr"]%string.

Inductive command : Type :=
| AptInstallNanum      (* apt-get update -y && apt-get install -y fonts-nanum *)
| FcCache              (* fc-cache -f -v *)
| LoadFontManager.     (* font_manager._load_fontmanager(try_read_cache=False) *)

Record font_host : Type := mkHost {
  ttflist_cached : list string;
  apt_ok : bool;
  fc_ok : bool;
  ttflist_rescanned : list string
}.

(** [c in available]. *)
Definition available_in (names : list string) (c : string) : bool :=
  existsb (String.eqb c) names.

(** The loops of lines 38-40 and 51-53 over the candidates still to try. *)
Fixpoint first_candidate (cs : list string) (names : list string)
  : option string :=
  match cs with
  | [] => None
  | c :: rest =>
      if available_in names c then Some c else first_candidate rest names
  end.

(** [needle in s], on the bytes of the two strings. *)
Fixpoint contains (needle s : string) : bool :=
  String.prefix needle s
  || match s with
     | EmptyString => false
     | String _ t => contains needle t
     end.

Definition hinted (lower : string -> string) (f : string) : bool :=
  let name := lower f in
  contains "nanum" name || contains "noto" name || contains "gothic" name.

(** The loop of lines 55-58. *)
Fixpoint first_hinted (lower : string -> string) (fonts : list string)
  : option string :=
  match fonts with
  | [] => None
  | f :: rest => if hinted lower f then Some f else first_hinted lower rest
  end.

(** Lines 43-49: the second command runs only when the first did not
    raise; whatever is raised is dropped; the reload follows in any case. *)
Definition provision (h : font_host) : list command :=
  AptInstallNanum :: (if apt_ok h then [FcCache] else []) ++ [LoadFontManager].

Definition ensure_korean_font_matplotlib (lower : string -> string)
           (h : font_host) : option string * list command :=
  match first_candidate candidates (ttflist_cached h) with
  | Some c => (Some c, [])
  | None =>
      match first_candidate candidates (ttflist_rescanned h) with
      | Some c => (Some c, provision h)
      | None => (first_hinted lower (ttflist_rescanned h), provision h)
      end
  end.

(** *** The chart settings (lines 77-80) *)

Inductive rcvalue : Type :=
| RcStr (s : string)
| RcBool (b : bool).

Definition rcparams : Type := string -> option rcvalue.

Definition rc_set (k : string) (v : rcvalue) (rc : rcparams) : rcparams :=
  fun k' => if String.eqb k' k then Some v else rc k'.

(** Lines 77-80; [if kr_font:] holds for a string that is not empty. *)
Definition setup_chart_font (lower : string -> string) (h : font_host)
           (rc : rcparams) : rcparams * list command :=
  let (kr_font, cmds) := ensure_korean_font_matplotlib lower h in
  let rc1 := match kr_font with
             | Some s => if String.eqb s EmptyString then rc
                         else rc_set "font.family" (RcStr s) rc
             | None => rc
             end in
  (rc_set "axes.unicode_minus" (RcBool false) rc1, cmds).

(** ASCII lower-casing, which is [str.lower] on ASCII names. *)
Definition ascii_lower_char (c : ascii) : ascii :=
  let n := nat_of_ascii c in
  if (65 <=? n)%nat && (n <=? 90)%nat then ascii_of_nat (n + 32) else c.

Fixpoint ascii_lower (s : string) : string :=
  match s with
  | EmptyString => EmptyString
  | String c t => String (ascii_lower_char c) (ascii_lower t)
  end.

(** *** Output files and the effects of a run

    [os.path.join] of two components. *)
Definition starts_with_slash (s : string) : bool :=
  match s with
  | String c _ => Ascii.eqb c "/"
  | EmptyString => false
  end.

Fixpoint ends_with_slash (s : string) : bool :=
  match s with
  | EmptyString => false
  | String c EmptyString => Ascii.eqb c "/"
  | String _ t => ends_with_slash t
  end.

Definition path_join (a b : string) : string :=
  if starts_with_slash b then b
  else if String.eqb a EmptyString || ends_with_slash a then (a ++ b)%string
  else (a ++ "/" ++ b)%string.

Definition OUT_DIR : string := "/mnt/data".

Definition line_path : string :=
  path_join OUT_DIR "01_주별_트렌드_평점_추이.png".
Definition scatter_path : string :=
  path_join OUT_DIR "02_트렌드_vs_평점_산점도.png".
Definition bubble_path : string :=
  path_join OUT_DIR "03_리뷰수_평점_트렌드_관계.png".
Definition pdf_path : string :=
  path_join OUT_DIR "포트폴리오_리뷰트렌드_분석.pdf".

(** What a run does to its surroundings, in order. *)
Inductive effect : Type :=
| MakeDirs (path : string)
| Provision (c : command)
| SaveFig (path : string)
| RegisterFont (alias file : string)
| BuildPdf (path : string)
| PrintSaved (paths : list string).

Definition writes_file (e : effect) : bool :=
  match e with
  | SaveFig _ | BuildPdf _ => true
  | _ => false
  end.

(** [main] with its effects: directory and chart font first, then the
    data steps, and only after them the charts, the PDF font, the PDF and
    the closing message.  Creating the directory, rendering a chart and
    building the PDF are taken to succeed. *)
Definition run (lower : string -> string) (h : font_host)
           (path_exists : string -> bool)
           (reviews : list review) (src : trend_source)
  : list effect * result unit :=
  let setup :=
    MakeDirs OUT_DIR
    :: map Provision (snd (ensure_korean_font_matplotlib lower h)) in
  match (j <- merged reviews src ;; statistics (j_rows j)) with
  | Raise e => (setup, Raise e)
  | Ok _ =>
      let (_, reg) := register_korean_font_reportlab path_exists [] in
      (setup
         ++ [SaveFig line_path; SaveFig scatter_path; SaveFig bubble_path]
         ++ map (fun p => RegisterFont (fst p) (snd p)) reg
         ++ [BuildPdf pdf_path;
             PrintSaved [line_path; scatter_path; bubble_path; pdf_path]],
       Ok tt)
  end.

(** *** The bullet paragraphs (lines 153-154) *)

(** The text of the paragraph [bullet] builds; [sep.join(items)] is
    [String.concat sep items]. *)
Definition bullet (items : list string) : string :=
  ("• " ++ String.concat "<br/>• " items)%string.

(** ** Specification-side notions *)

(** The key of a row of the joined table. *)
Definition row_key (r : merged_row) : key := (iso_year r, iso_week r).

(** The keys of [l] that also occur in [r]. *)
Definition common_keys (l r : list key) : list key :=
  filter (fun k => existsb (key_eqb k) r) l.

(** The ISO week of a date cell, when it is a date. *)
Definition week_of_cell (c : date_cell) : option key :=
  match c with
  | DateText d => Some (isocal_year d, isocal_week d)
  | _ => None
  end.

(** The review rows whose timestamp falls in week [k]. *)
Definition reviews_in_week (k : key) (reviews : list review) : list review :=
  filter (fun r => match week_of_cell (r_at r) with
                   | Some k' => key_eqb k' k
                   | None => false
                   end) reviews.

Definition key_lt (a b : key) : Prop := key_ltb a b = true.

(** The value of a cell that is known not to be NaN. *)
Definition val (o : option Q) : Q :=
  match o with Some q => q | None => 0 end.

Definition is_some (o : option Q) : bool :=
  match o with Some _ => true | None => false end.

(** The sum of the products of deviations of two coordinates [a], [b] of a
    list of observations. *)
Definition cross {A : Type} (a b : A -> Q) (P : list A) : Q :=
  Qsum (map (fun p => (a p - Qmean (map a P)) * (b p - Qmean (map b P))) P).

(** Fewer than two paired observations, or zero variance in one of the two
    series. *)
Definition insufficient (m : list merged_row) : Prop :=
  (length m < 2)%nat
  \/ is_constant (map trend_mean m) = true
  \/ is_constant (map avg_score m) = true.

Definition crashes {A : Type} (r : result A) : Prop :=
  exists e, r = Raise e.

Definition nan_reaches_document (r : result stats) : Prop :=
  exists s, r = Ok s
            /\ existsb prints_nan (pearson_cell s ++ spearman_cell s) = true.

(** The outcome the specification asks for on such a table. *)
Definition reports_insufficient_data (m : list merged_row) : Prop :=
  ~ crashes (statistics m) /\ ~ nan_reaches_document (statistics m).

Definition nan_stats : stats := mkStats NaN PNaN NaN PNaN.

(** A cell that holds a date. *)
Definition is_date (c : date_cell) : bool :=
  match c with DateText _ => true | _ => false end.

(** The weekly key of a date cell. *)
Definition key_of_cell (c : date_cell) : key :=
  match week_of_cell c with Some k => k | None => (0, 0)%Z end.

(** Week [k] holds the timestamp of a review row. *)
Definition has_review_in (k : key) (reviews : list review) : Prop :=
  exists r d, In r reviews /\ r_at r = DateText d
              /\ k = (isocal_year d, isocal_week d).

(** Week [k] holds the date of a trend row. *)
Definition has_trend_in (k : key) (src : trend_source) : Prop :=
  exists d, In (DateText d) (t_date src)
            /\ k = (isocal_year d, isocal_week d).

(** The first column of a table that holds numbers, scanning the columns
    in file order. *)
Fixpoint first_number_column (df : frame) : option string :=
  match df with
  | [] => None
  | (n, CNum _) :: _ => Some n
  | (_, _) :: t => first_number_column t
  end.


(** ** Sample tables

    The scenario of the specification ([scen_]), a trend file of a later
    week, a week with a missing score, two weeks with one and the same
    mean score and a trend file with the preferred column, a trend file
    with a text column only, one whose text column is called iso_week,
    and a joined table of two weeks. *)

Definition scen_reviews : list review :=
  [mkReview (DateText (mkDate 2024 1 3)) (Some 5%Q);
   mkReview (DateText (mkDate 2024 1 4)) (Some 3%Q)].

Definition scen_trend : trend_source :=
  mkTrend [DateText (mkDate 2024 1 3); DateText (mkDate 2024 1 4)]
          [("metric"%string, CNum [Some 10%Q; Some 20%Q])].

Definition scen_weekly_reviews : list weekly_review :=
  [mkWR (2024, 1)%Z (Some 4%Q) 2].

Definition scen_weekly_trend : trend_weekly :=
  mkTW (Some "metric"%string) [mkWT (2024, 1)%Z (Some 15%Q)].

Definition later_trend : trend_source :=
  mkTrend [DateText (mkDate 2024 2 7)]
          [("metric"%string, CNum [Some 10%Q])].

Definition gap_reviews : list review :=
  [mkReview (DateText (mkDate 2024 1 3)) (Some 5%Q);
   mkReview (DateText (mkDate 2024 1 4)) None].

Definition named_reviews : list review :=
  [mkReview (DateText (mkDate 2024 1 3)) (Some 5%Q);
   mkReview (DateText (mkDate 2024 1 10)) (Some 5%Q)].

Definition named_trend : trend_source :=
  mkTrend [DateText (mkDate 2024 1 3); DateText (mkDate 2024 1 10)]
          [("검색"%string, CNum [Some 7%Q; Some 9%Q]);
           (preferred, CNum [Some 10%Q; Some 20%Q])].

Definition named_document : document :=
  mkDoc "Helvetica" (data_cell (Some preferred)) (trend_label (Some preferred))
        [Fixed3 NaN; Lit " (p="; Sci2 PNaN; Lit ")"]
        [Fixed3 NaN; Lit " (p="; Sci2 PNaN; Lit ")"].

Definition textual_trend : trend_source :=
  mkTrend [DateText (mkDate 2024 1 3); DateText (mkDate 2024 1 10)]
          [("label"%string, CObj ["a"; "b"]%string)].

(** A trend file whose text column is called iso_week and stands before
    its numeric column. *)
Definition week_text_trend : trend_source :=
  mkTrend [DateText (mkDate 2024 1 3); DateText (mkDate 2024 1 10)]
          [("iso_week"%string, CObj ["first"; "second"]%string);
           ("metric"%string, CNum [Some 10%Q; Some 20%Q])].

Definition flat_scores : list merged_row :=
  [mkRow 2024 1 (Some 5%Q) 1 (Some 10%Q) 202401;
   mkRow 2024 2 (Some 5%Q) 1 (Some 20%Q) 202402].

(** A host that lists two of the preferred families. *)
Definition office_host : font_host :=
  mkHost ["DejaVu Sans"; "Malgun Gothic"; "NanumGothic"]%string
         false false
         ["DejaVu Sans"; "Malgun Gothic"; "NanumGothic"]%string.

(** Chart settings with nothing set. *)
Definition blank_rc : rcparams := fun _ => None.

(** * Properties *)

(** ** Keys and groups *)

Lemma key_eqb_eq (a b : key) : key_eqb a b = true <-> a = b.
Proof.
  destruct a as [a1 a2], b as [b1 b2]; unfold key_eqb; simpl.
  rewrite andb_true_iff, !Z.eqb_eq. split.
  - intros [-> ->]; reflexivity.
  - intros H; inversion H; auto.
Qed.

Lemma key_eqb_refl (a : key) : key_eqb a a = true.
Proof. apply key_eqb_eq; reflexivity. Qed.

Lemma key_eqb_sym (a b : key) : key_eqb a b = key_eqb b a.
Proof.
  destruct (key_eqb a b) eqn:E, (key_eqb b a) eqn:F; auto.
  - apply key_eqb_eq in E; subst. rewrite key_eqb_refl in F; discriminate.
  - apply key_eqb_eq in F; subst. rewrite key_eqb_refl in E; discriminate.
Qed.

Lemma key_lt_spec (a b : key) :
  key_lt a b <->
  (fst a < fst b \/ (fst a = fst b /\ snd a < snd b))%Z.
Proof.
  unfold key_lt, key_ltb.
  rewrite orb_true_iff, andb_true_iff, !Z.ltb_lt, Z.eqb_eq. tauto.
Qed.

Lemma key_lt_trans (a b c : key) : key_lt a b -> key_lt b c -> key_lt a c.
Proof. rewrite !key_lt_spec. lia. Qed.

Lemma key_lt_irrefl (a : key) : ~ key_lt a a.
Proof. rewrite key_lt_spec. lia. Qed.

Lemma key_trichotomy (a b : key) :
  key_ltb a b = false -> key_eqb a b = false -> key_lt b a.
Proof.
  intros Hlt Heq. rewrite key_lt_spec.
  destruct a as [a1 a2], b as [b1 b2]; unfold key_ltb, key_eqb in *; simpl in *.
  apply orb_false_iff in Hlt as [H1 H2].
  apply Z.ltb_ge in H1.
  apply andb_false_iff in H2. apply andb_false_iff in Heq.
  rewrite !Z.eqb_neq, Z.ltb_ge in *. lia.
Qed.

Lemma insert_key_In (k x : key) (ks : list key) :
  In x (insert_key k ks) <-> x = k \/ In x ks.
Proof.
  induction ks as [|h t IH]; simpl.
  - intuition.
  - destruct (key_ltb k h) eqn:Hlt; simpl; [intuition|].
    destruct (key_eqb k h) eqn:Heq; simpl.
    + apply key_eqb_eq in Heq; subst. intuition.
    + rewrite IH. intuition.
Qed.

Lemma group_keys_In (x : key) (ks : list key) :
  In x (group_keys ks) <-> In x ks.
Proof.
  induction ks as [|h t IH]; simpl; [tauto|].
  rewrite insert_key_In, IH. intuition.
Qed.

Lemma insert_key_sorted (k : key) (ks : list key) :
  StronglySorted key_lt ks -> StronglySorted key_lt (insert_key k ks).
Proof.
  induction 1 as [|h t Hs IH Hall]; simpl.
  - repeat constructor.
  - destruct (key_ltb k h) eqn:Hlt.
    + constructor; [constructor; assumption|].
      constructor; [exact Hlt|].
      eapply Forall_impl; [|exact Hall].
      intros a Ha. eapply key_lt_trans; eauto.
    + destruct (key_eqb k h) eqn:Heq.
      * constructor; assumption.
      * constructor; [exact IH|].
        apply Forall_forall. intros a Ha.
        apply insert_key_In in Ha as [->|Ha].
        -- apply key_trichotomy; assumption.
        -- rewrite Forall_forall in Hall. auto.
Qed.

Lemma group_keys_sorted (ks : list key) : StronglySorted key_lt (group_keys ks).
Proof.
  induction ks; simpl; [constructor|]. apply insert_key_sorted; assumption.
Qed.

Lemma sorted_keys_NoDup (ks : list key) : StronglySorted key_lt ks -> NoDup ks.
Proof.
  induction 1 as [|h t Hs IH Hall]; constructor; auto.
  intros Hin. rewrite Forall_forall in Hall.
  exact (key_lt_irrefl h (Hall _ Hin)).
Qed.

Lemma group_keys_NoDup (ks : list key) : NoDup (group_keys ks).
Proof. apply sorted_keys_NoDup, group_keys_sorted. Qed.

Lemma agg_reviews_keys (keyed : list (key * option Q)) :
  map wr_key (agg_reviews keyed) = group_keys (map fst keyed).
Proof. unfold agg_reviews. rewrite map_map. simpl. apply map_id. Qed.

Lemma agg_trend_keys (ks : list key) (metric : option string) (df : frame)
      (wt : list weekly_trend) :
  agg_trend ks metric df = Ok wt -> map wt_key wt = group_keys ks.
Proof.
  unfold agg_trend. destruct metric as [c|]; [|discriminate].
  destruct (lookup c df) as [[vs|vs|vs]|]; try discriminate.
  intros H; injection H as <-. rewrite map_map. simpl. apply map_id.
Qed.

(** What a successful run of each half of the loader looks like. *)
Lemma weekly_reviews_inv (reviews : list review) (wr : list weekly_review) :
  weekly_reviews reviews = Ok wr ->
  exists ks, has_garbage (map r_at reviews) = false
             /\ iso_keys (map cell_date (map r_at reviews)) = Ok ks
             /\ wr = agg_reviews (combine ks (map r_score reviews)).
Proof.
  unfold weekly_reviews, read_csv_parse_dates.
  destruct (has_garbage (map r_at reviews)); simpl; [discriminate|].
  destruct (iso_keys (map cell_date (map r_at reviews))) as [ks|e]; simpl;
    [|discriminate].
  intros H; injection H as <-. exists ks. auto.
Qed.

Lemma weekly_trend_of_inv (src : trend_source) (tw : trend_weekly) :
  weekly_trend_of src = Ok tw ->
  exists ks, has_garbage (t_date src) = false
             /\ iso_keys (map cell_date (t_date src)) = Ok ks
             /\ tw_metric tw
                = trend_metric_col
                    (trend_frame src (map cell_date (t_date src)) ks)
             /\ agg_trend ks (tw_metric tw)
                  (trend_frame src (map cell_date (t_date src)) ks)
                = Ok (tw_rows tw).
Proof.
  unfold weekly_trend_of, to_datetime.
  destruct (has_garbage (t_date src)); simpl; [discriminate|].
  destruct (iso_keys (map cell_date (t_date src))) as [ks|e]; simpl;
    [|discriminate].
  destruct (agg_trend ks _ _) as [rows|e] eqn:E; simpl; [|discriminate].
  intros H; injection H as <-. exists ks. simpl. auto.
Qed.

(** ** The join *)

Lemma existsb_key_In (k : key) (ks : list key) :
  existsb (key_eqb k) ks = true <-> In k ks.
Proof.
  rewrite existsb_exists. split.
  - intros [x [Hin Heq]]. apply key_eqb_eq in Heq; subst; assumption.
  - intros Hin. exists k. split; [assumption|apply key_eqb_refl].
Qed.

Lemma matching_rows_count (k : key) (r : list weekly_trend) :
  NoDup (map wt_key r) ->
  length (filter (fun b => key_eqb k (wt_key b)) r)
  = if existsb (key_eqb k) (map wt_key r) then 1%nat else 0%nat.
Proof.
  induction r as [|b t IH]; simpl; intros Hnd; [reflexivity|].
  inversion Hnd as [|? ? Hnotin Hnd']; subst.
  specialize (IH Hnd').
  destruct (key_eqb k (wt_key b)) eqn:E; simpl.
  - apply key_eqb_eq in E; subst k.
    destruct (existsb (key_eqb (wt_key b)) (map wt_key t)) eqn:F.
    + apply existsb_key_In in F. contradiction.
    + rewrite IH. reflexivity.
  - exact IH.
Qed.

Lemma merge_length (l : list weekly_review) (r : list weekly_trend) :
  NoDup (map wt_key r) ->
  length (merge l r) = length (common_keys (map wr_key l) (map wt_key r)).
Proof.
  intros Hnd. unfold merge, common_keys.
  induction l as [|a t IH]; simpl; [reflexivity|].
  rewrite length_app, length_map, IH, (matching_rows_count _ _ Hnd).
  destruct (existsb (key_eqb (wr_key a)) (map wt_key r)); reflexivity.
Qed.

Lemma merged_row_of_key (a : weekly_review) (b : weekly_trend) :
  row_key (merged_row_of (a, b)) = wr_key a.
Proof. unfold row_key; simpl. destruct (wr_key a); reflexivity. Qed.

Lemma merged_of_keys (l : list weekly_review) (r : list weekly_trend) (k : key) :
  In k (map row_key (merged_of l r))
  <-> In k (map wr_key l) /\ In k (map wt_key r).
Proof.
  unfold merged_of, merge. rewrite map_map, in_map_iff. split.
  - intros [[a b] [Hk Hin]]. rewrite merged_row_of_key in Hk. subst k.
    apply in_flat_map in Hin as [a' [Ha' Hin]].
    apply in_map_iff in Hin as [b' [Heq Hb']]. inversion Heq; subst a' b'.
    apply filter_In in Hb' as [Hb' Hkey]. apply key_eqb_eq in Hkey.
    split; [apply in_map; assumption|].
    rewrite Hkey. apply in_map; assumption.
  - intros [Hl Hr].
    apply in_map_iff in Hl as [a [Ha Hina]].
    apply in_map_iff in Hr as [b [Hb Hinb]].
    exists (a, b). split; [rewrite merged_row_of_key; assumption|].
    apply in_flat_map. exists a. split; [assumption|].
    apply in_map. apply filter_In. split; [assumption|].
    apply key_eqb_eq. congruence.
Qed.

(** C2.  The join is an inner join on (iso_year, iso_week): each weekly
    aggregate has one row per key, the joined table has as many rows as
    there are keys present in both aggregates, and a key occurs in the
    joined table exactly when it occurs in both (so a key of only one
    input never appears). *)
Theorem merged_is_inner_join (reviews : list review) (src : trend_source)
        (wr : list weekly_review) (tw : trend_weekly) :
  weekly_reviews reviews = Ok wr ->
  weekly_trend_of src = Ok tw ->
  let lk := map wr_key wr in
  let rk := map wt_key (tw_rows tw) in
  let rows := merged_of wr (tw_rows tw) in
  merged reviews src = Ok (mkJoined (tw_metric tw) rows)
  /\ NoDup lk /\ NoDup rk
  /\ length rows = length (common_keys lk rk)
  /\ (forall k, In k (map row_key rows) <-> In k lk /\ In k rk).
Proof.
  intros Hr Ht lk rk rows.
  assert (Hlk : NoDup lk).
  { apply weekly_reviews_inv in Hr as [ks [_ [_ ->]]].
    unfold lk. rewrite agg_reviews_keys. apply group_keys_NoDup. }
  assert (Hrk : NoDup rk).
  { apply weekly_trend_of_inv in Ht as [ks [_ [_ [_ Hagg]]]].
    unfold rk. rewrite (agg_trend_keys _ _ _ _ Hagg). apply group_keys_NoDup. }
  split; [unfold merged; rewrite Hr, Ht; reflexivity|].
  split; [exact Hlk|]. split; [exact Hrk|]. split.
  - unfold rows, merged_of. rewrite length_map. apply merge_length. exact Hrk.
  - intros k. apply merged_of_keys.
Qed.

Lemma merged_is_inner_join_witness :
  let lk := map wr_key scen_weekly_reviews in
  let rk := map wt_key (tw_rows scen_weekly_trend) in
  let rows := merged_of scen_weekly_reviews (tw_rows scen_weekly_trend) in
  merged scen_reviews scen_trend
  = Ok (mkJoined (tw_metric scen_weekly_trend) rows)
  /\ NoDup lk /\ NoDup rk
  /\ length rows = length (common_keys lk rk)
  /\ (forall k, In k (map row_key rows) <-> In k lk /\ In k rk).
Proof.
  apply (merged_is_inner_join scen_reviews scen_trend
           scen_weekly_reviews scen_weekly_trend); reflexivity.
Defined.

(** ** Weekly keys and the review aggregate *)

Lemma iso_keys_weeks (cells : list date_cell) (ks : list key) :
  iso_keys (map cell_date cells) = Ok ks ->
  map week_of_cell cells = map Some ks.
Proof.
  revert ks. induction cells as [|c t IH]; simpl; intros ks H.
  - injection H as <-. reflexivity.
  - destruct c as [d| |]; simpl in H; try discriminate.
    destruct (iso_keys (map cell_date t)) as [ks'|e]; simpl in H;
      [|discriminate].
    injection H as <-. simpl. rewrite (IH ks' eq_refl). reflexivity.
Qed.

Lemma iso_keys_In (cells : list date_cell) (ks : list key) (k : key) :
  iso_keys (map cell_date cells) = Ok ks ->
  (In k ks <->
   exists d, In (DateText d) cells /\ k = (isocal_year d, isocal_week d)).
Proof.
  intros H. apply iso_keys_weeks in H.
  assert (E : In (Some k) (map week_of_cell cells) <-> In k ks).
  { rewrite H, in_map_iff. split.
    - intros [x [Hx Hin]]. injection Hx as ->. assumption.
    - intros Hin. exists k; auto. }
  rewrite <- E, in_map_iff. split.
  - intros [c [Hc Hin]]. destruct c as [d| |]; simpl in Hc; try discriminate.
    injection Hc as <-. exists d. auto.
  - intros [d [Hin ->]]. exists (DateText d). auto.
Qed.

Lemma group_reviews_in_week (k : key) (reviews : list review) (ks : list key) :
  map week_of_cell (map r_at reviews) = map Some ks ->
  group k (combine ks (map r_score reviews))
  = map r_score (reviews_in_week k reviews).
Proof.
  unfold group, reviews_in_week.
  revert ks. induction reviews as [|r t IH]; intros ks H.
  - destruct ks; reflexivity.
  - destruct ks as [|k' ks']; simpl in H; [discriminate|].
    injection H as Hk Ht. simpl. rewrite Hk.
    destruct (key_eqb k' k); simpl; rewrite (IH ks' Ht); reflexivity.
Qed.

Lemma map_fst_combine {A B : Type} (l : list A) (l' : list B) :
  length l = length l' -> map fst (combine l l') = l.
Proof.
  revert l'. induction l as [|a t IH]; intros [|b t']; simpl; intros H;
    try discriminate; [reflexivity|].
  rewrite IH; [reflexivity|lia].
Qed.

Lemma present_length (vs : list (option Q)) : (length (present vs) <= length vs)%nat.
Proof.
  induction vs as [|[q|] t IH]; simpl; lia.
Qed.

(** C10.  In every row of the weekly review aggregate, review_count is the
    number of all review rows whose timestamp falls in that ISO week,
    missing scores included, and avg_score is the mean of the scores that
    are present among them (NaN when there is none); the count is never
    below the number of values averaged, and it can exceed it. *)
Theorem review_count_is_size_avg_skips_missing :
  (forall (reviews : list review) (wr : list weekly_review),
      weekly_reviews reviews = Ok wr ->
      forall row, In row wr ->
        let rows := reviews_in_week (wr_key row) reviews in
        let scored := present (map r_score rows) in
        wr_review_count row = length rows
        /\ wr_avg_score row
           = match scored with
             | [] => None
             | _ => Some (Qred (Qsum scored
                                / inject_Z (Z.of_nat (length scored))))
             end
        /\ (length scored <= wr_review_count row)%nat)
  /\ (exists row,
         weekly_reviews gap_reviews = Ok [row]
         /\ wr_review_count row = 2%nat
         /\ length (present (map r_score
                      (reviews_in_week (wr_key row) gap_reviews))) = 1%nat
         /\ wr_avg_score row = Some 5%Q).
Proof.
  split.
  - intros reviews wr H row Hin rows scored.
    apply weekly_reviews_inv in H as [ks [_ [Hks ->]]].
    apply iso_keys_weeks in Hks.
    unfold agg_reviews in Hin. apply in_map_iff in Hin as [k [<- _]]. simpl.
    unfold size. subst scored rows. simpl.
    rewrite (group_reviews_in_week k reviews ks Hks).
    rewrite length_map. split; [reflexivity|]. split.
    + unfold mean.
      destruct (present (map r_score (reviews_in_week k reviews)));
        reflexivity.
    + rewrite <- (length_map r_score). apply present_length.
  - exists (mkWR (2024, 1)%Z (Some 5%Q) 2). repeat split.
Qed.

Lemma review_count_is_size_avg_skips_missing_witness :
  let row := mkWR (2024, 1)%Z (Some 5%Q) 2 in
  let rows := reviews_in_week (wr_key row) gap_reviews in
  let scored := present (map r_score rows) in
  wr_review_count row = length rows
  /\ wr_avg_score row
     = match scored with
       | [] => None
       | _ => Some (Qred (Qsum scored / inject_Z (Z.of_nat (length scored))))
       end
  /\ (length scored <= wr_review_count row)%nat.
Proof.
  apply (proj1 review_count_is_size_avg_skips_missing gap_reviews
               [mkWR (2024, 1)%Z (Some 5%Q) 2]).
  - reflexivity.
  - left. reflexivity.
Defined.

(** C9.  The year of the weekly key is the ISO week-based year: the keys
    of either aggregate are exactly the pairs (isocalendar().year,
    isocalendar().week) of the input dates.  1 January 2021 is bucketed
    under week 53 of 2020 and 30 December 2024 under week 1 of 2025. *)
Theorem weekly_key_is_iso_year_and_week :
  (forall (reviews : list review) (wr : list weekly_review),
      weekly_reviews reviews = Ok wr ->
      forall k, In k (map wr_key wr) <->
                exists r d, In r reviews /\ r_at r = DateText d
                            /\ k = (isocal_year d, isocal_week d))
  /\ (forall (src : trend_source) (tw : trend_weekly),
         weekly_trend_of src = Ok tw ->
         forall k, In k (map wt_key (tw_rows tw)) <->
                   exists d, In (DateText d) (t_date src)
                             /\ k = (isocal_year d, isocal_week d))
  /\ (year (mkDate 2021 1 1) = 2021%Z
      /\ weekly_reviews [mkReview (DateText (mkDate 2021 1 1)) (Some 5%Q)]
         = Ok [mkWR (2020, 53)%Z (Some 5%Q) 1])
  /\ (year (mkDate 2024 12 30) = 2024%Z
      /\ weekly_reviews [mkReview (DateText (mkDate 2024 12 30)) (Some 5%Q)]
         = Ok [mkWR (2025, 1)%Z (Some 5%Q) 1]).
Proof.
  split; [|split; [|split; split; reflexivity]].
  - intros reviews wr H k.
    apply weekly_reviews_inv in H as [ks [_ [Hks ->]]].
    assert (Hlen : length ks = length (map r_score reviews)).
    { apply iso_keys_weeks in Hks.
      apply (f_equal (@length _)) in Hks. rewrite !length_map in *. lia. }
    rewrite agg_reviews_keys, group_keys_In.
    rewrite (map_fst_combine ks (map r_score reviews) Hlen).
    rewrite (iso_keys_In _ _ k Hks). split.
    + intros [d [Hin ->]]. apply in_map_iff in Hin as [r [Hr Hin]].
      exists r, d. auto.
    + intros [r [d [Hin [Hr ->]]]]. exists d. split; [|reflexivity].
      rewrite <- Hr. apply in_map. assumption.
  - intros src tw H k.
    apply weekly_trend_of_inv in H as [ks [_ [Hks [_ Hagg]]]].
    rewrite (agg_trend_keys _ _ _ _ Hagg), group_keys_In.
    apply iso_keys_In. assumption.
Qed.

Lemma weekly_key_is_iso_year_and_week_witness :
  In (2020, 53)%Z (map wr_key [mkWR (2020, 53)%Z (Some 5%Q) 1]) <->
  exists r d,
    In r [mkReview (DateText (mkDate 2021 1 1)) (Some 5%Q)]
    /\ r_at r = DateText d
    /\ (2020, 53)%Z = (isocal_year d, isocal_week d).
Proof.
  apply (proj1 weekly_key_is_iso_year_and_week
               [mkReview (DateText (mkDate 2021 1 1)) (Some 5%Q)]
               [mkWR (2020, 53)%Z (Some 5%Q) 1]).
  reflexivity.
Defined.

(** ** The worked scenario *)

(** C5.  Reviews (2024-01-03, 5), (2024-01-04, 3) and trend rows
    (2024-01-03, 10), (2024-01-04, 20): all four dates are in ISO week
    (2024, 1); the review aggregate has mean 4 and count 2, the trend
    aggregate has mean 15, and the joined table is the single row
    (2024, 1, 4, 2, 15, 202401). *)
Theorem scenario_single_week :
  map week_of_cell (map r_at scen_reviews)
  = [Some (2024, 1)%Z; Some (2024, 1)%Z]
  /\ map week_of_cell (t_date scen_trend)
     = [Some (2024, 1)%Z; Some (2024, 1)%Z]
  /\ weekly_reviews scen_reviews = Ok [mkWR (2024, 1)%Z (Some 4%Q) 2]
  /\ weekly_trend_of scen_trend
     = Ok (mkTW (Some "metric"%string) [mkWT (2024, 1)%Z (Some 15%Q)])
  /\ merged scen_reviews scen_trend
     = Ok (mkJoined (Some "metric"%string)
             [mkRow 2024 1 (Some 4%Q) 2 (Some 15%Q) 202401]).
Proof. repeat split. Qed.

(** ** The week index *)

Lemma merged_week_index (l : list weekly_review) (r : list weekly_trend)
      (row : merged_row) :
  In row (merged_of l r) ->
  week_index row = week_index_of (iso_year row) (iso_week row).
Proof.
  unfold merged_of. rewrite in_map_iff. intros [[a b] [<- _]]. reflexivity.
Qed.

(** C6.  For week numbers in [1, 53], a chronologically earlier
    (year, week) pair has a strictly smaller index year*100+week, within a
    year and across a year boundary. *)
Theorem week_index_strictly_increasing (y1 w1 y2 w2 : Z) :
  (1 <= w1 <= 53)%Z ->
  (1 <= w2 <= 53)%Z ->
  (y1 < y2 \/ (y1 = y2 /\ w1 < w2))%Z ->
  (week_index_of y1 w1 < week_index_of y2 w2)%Z.
Proof. unfold week_index_of. lia. Qed.

Lemma week_index_strictly_increasing_witness :
  (week_index_of 2023 52 < week_index_of 2024 1)%Z.
Proof.
  apply week_index_strictly_increasing; lia.
Defined.

(** ** The PDF font resolver *)

(** C8.  The resolver tries the three fixed font files in order; the first
    one that exists is registered under the alias KFont, which is
    returned; when none exists nothing is registered and Helvetica is
    returned. *)
Theorem font_resolver_registers_first_existing
        (path_exists : string -> bool) (reg : registry) :
  ttf_candidates
  = ["/usr/share/fonts/truetype/nanum/NanumGothic.ttf";
     "/usr/share/fonts/truetype/nanum/NanumGothicBold.ttf";
     "/usr/share/fonts/truetype/noto/NotoSansCJK-Regular.ttc"]%string
  /\ register_korean_font_reportlab path_exists reg
     = match find path_exists ttf_candidates with
       | Some p => ("KFont"%string, ("KFont"%string, p) :: reg)
       | None => ("Helvetica"%string, reg)
       end.
Proof.
  split; [reflexivity|].
  unfold register_korean_font_reportlab.
  induction ttf_candidates as [|p rest IH]; simpl; [reflexivity|].
  destruct (path_exists p); [reflexivity|exact IH].
Qed.

(** ** The trend metric column *)

Lemma existsb_string_In (s : string) (l : list string) :
  existsb (String.eqb s) l = true <-> In s l.
Proof.
  rewrite existsb_exists. split.
  - intros [x [Hin Heq]]. apply String.eqb_eq in Heq. subst. assumption.
  - intros Hin. exists s. split; [assumption|apply String.eqb_refl].
Qed.

Lemma numeric_cols_set_number (name : string) (vs : list (option Q)) (df : frame) :
  exists c rest, numeric_cols (set_column name (CNum vs) df) = c :: rest.
Proof.
  unfold numeric_cols, columns.
  induction df as [|[n c'] t IH]; simpl.
  - eauto.
  - destruct (String.eqb n name); simpl.
    + eauto.
    + destruct (is_number c'); simpl; [eauto|exact IH].
Qed.

Lemma lookup_of_column (c : string) (df : frame) :
  In c (columns df) -> exists col, lookup c df = Some col.
Proof.
  induction df as [|[n col] t IH]; simpl; [intros []|].
  intros [->|Hin].
  - rewrite String.eqb_refl. eauto.
  - destruct (String.eqb n c); [eauto|apply IH; assumption].
Qed.

Lemma trend_frame_metric (src : trend_source) (ds : list (option date))
      (ks : list key) :
  exists c, trend_metric_col (trend_frame src ds ks) = Some c.
Proof.
  unfold trend_metric_col, trend_frame.
  destruct (existsb _ _); [eauto|].
  unfold int_column.
  destruct (numeric_cols_set_number "iso_week"
              (map (fun z => Some (inject_Z z)) (map snd ks))
              (set_column "iso_year"
                 (CNum (map (fun z => Some (inject_Z z)) (map fst ks)))
                 (set_column "date" (CDatetime ds) (t_cols src))))
    as [c [rest ->]].
  eauto.
Qed.

Lemma first_number_is_head (df : frame) :
  hd_error (numeric_cols df) = first_number_column df.
Proof.
  unfold numeric_cols, columns.
  induction df as [|[n c] t IH]; simpl; [reflexivity|].
  destruct c; simpl; [reflexivity|exact IH|exact IH].
Qed.

Lemma set_column_absent (name : string) (c : column) (df : frame) :
  lookup name df = None -> set_column name c df = df ++ [(name, c)].
Proof.
  induction df as [|[n c'] t IH]; simpl; [reflexivity|].
  destruct (String.eqb n name); [discriminate|].
  intros H. rewrite (IH H). reflexivity.
Qed.

Lemma lookup_app_other (n m : string) (c : column) (df : frame) :
  String.eqb m n = false ->
  lookup n (df ++ [(m, c)]) = lookup n df.
Proof.
  intros Hne. induction df as [|[k c'] t IH]; simpl.
  - rewrite Hne. reflexivity.
  - destruct (String.eqb k n); [reflexivity|exact IH].
Qed.

Lemma first_number_app (df l : frame) :
  first_number_column (df ++ l)
  = match first_number_column df with
    | Some c => Some c
    | None => first_number_column l
    end.
Proof.
  induction df as [|[n c] t IH]; simpl; [reflexivity|].
  destruct c; [reflexivity|exact IH|exact IH].
Qed.

Lemma lookup_In_columns (name : string) (df : frame) (col : column) :
  lookup name df = Some col -> In name (columns df).
Proof.
  induction df as [|[n c] t IH]; simpl; [discriminate|].
  destruct (String.eqb n name) eqn:E.
  - apply String.eqb_eq in E. left. assumption.
  - intros H. right. apply IH. assumption.
Qed.

Lemma set_column_keeps (n x : string) (c : column) (df : frame) :
  In x (columns df) -> In x (columns (set_column n c df)).
Proof.
  induction df as [|[m c'] t IH]; simpl; [intros []|].
  destruct (String.eqb m n) eqn:E; simpl.
  - apply String.eqb_eq in E. subst. auto.
  - intros [H|H]; [left; assumption|right; apply IH; assumption].
Qed.

Lemma preferred_is_chosen (src : trend_source) (ds : list (option date))
      (ks : list key) (col : column) :
  lookup preferred (t_cols src) = Some col ->
  trend_metric_col (trend_frame src ds ks) = Some preferred.
Proof.
  intros H. unfold trend_metric_col.
  assert (E : existsb (String.eqb preferred)
                (columns (trend_frame src ds ks)) = true).
  { apply existsb_string_In. unfold trend_frame.
    repeat apply set_column_keeps. exact (lookup_In_columns _ _ _ H). }
  rewrite E. reflexivity.
Qed.

Lemma plain_trend_frame (src : trend_source) (ds : list (option date))
      (ks : list key) :
  lookup "date" (t_cols src) = None ->
  lookup "iso_year" (t_cols src) = None ->
  lookup "iso_week" (t_cols src) = None ->
  trend_frame src ds ks
  = t_cols src
      ++ [("date"%string, CDatetime ds)]
      ++ [("iso_year"%string, int_column (map fst ks))]
      ++ [("iso_week"%string, int_column (map snd ks))].
Proof.
  intros Hd Hy Hw. unfold trend_frame.
  rewrite (set_column_absent "date" _ _ Hd).
  rewrite (set_column_absent "iso_year").
  - rewrite (set_column_absent "iso_week").
    + rewrite <- !app_assoc. reflexivity.
    + rewrite !lookup_app_other; [exact Hw|reflexivity|reflexivity].
  - rewrite lookup_app_other; [exact Hy|reflexivity].
Qed.

(** C3, where the code leaves the claim.  A column of the preferred name
    is always chosen, and on a trend table without columns named date,
    iso_year or iso_week that has a numeric column the table's first
    numeric column is chosen; the chosen name is printed in the data row
    of the report and in the chart labels.  But the numeric columns are
    listed after iso_year and iso_week were written into the frame: for
    the table with the text column iso_week before the numeric column
    metric, the first numeric column of the table is metric and the code
    takes iso_week. *)
Theorem metric_column_is_read_after_the_week_columns :
  (lookup preferred (t_cols week_text_trend) = None
   /\ first_number_column (t_cols week_text_trend) = Some "metric"%string
   /\ weekly_trend_of week_text_trend
      = Ok (mkTW (Some "iso_week"%string)
              [mkWT (2024, 1)%Z (Some 1%Q); mkWT (2024, 2)%Z (Some 2%Q)]))
  /\ (forall src ds ks col,
         lookup preferred (t_cols src) = Some col ->
         trend_metric_col (trend_frame src ds ks) = Some preferred)
  /\ (forall src ds ks c,
         lookup "date" (t_cols src) = None ->
         lookup "iso_year" (t_cols src) = None ->
         lookup "iso_week" (t_cols src) = None ->
         lookup preferred (t_cols src) = None ->
         first_number_column (t_cols src) = Some c ->
         trend_metric_col (trend_frame src ds ks) = Some c)
  /\ (forall path_exists reg reviews src doc reg',
         main path_exists reg reviews src = Ok (doc, reg') ->
         exists tw c,
           weekly_trend_of src = Ok tw
           /\ tw_metric tw = Some c
           /\ doc_data_cell doc
              = ("리뷰 130K+ (score, at, content) / 주별 트렌드 지수(‘"
                 ++ c ++ "’ 기준)")%string
           /\ doc_trend_label doc
              = ("주별 트렌드 지수(" ++ c ++ ")")%string).
Proof.
  split; [repeat split|]. split; [exact preferred_is_chosen|]. split.
  - intros src ds ks c Hd Hy Hw Hp Hc.
    unfold trend_metric_col.
    destruct (existsb (String.eqb preferred)
                (columns (trend_frame src ds ks))) eqn:E.
    + exfalso. apply existsb_string_In in E.
      rewrite (plain_trend_frame src ds ks Hd Hy Hw) in E.
      unfold columns in E. rewrite !map_app in E.
      apply in_app_or in E as [E|E].
      * destruct (lookup_of_column _ _ E) as [col Hcol]. congruence.
      * simpl in E.
        repeat (destruct E as [E|E];
                [apply String.eqb_eq in E; discriminate|]).
        exact E.
    + pose proof (first_number_is_head (trend_frame src ds ks)) as F.
      rewrite (plain_trend_frame src ds ks Hd Hy Hw) in F.
      rewrite first_number_app, Hc in F.
      rewrite (plain_trend_frame src ds ks Hd Hy Hw).
      destruct (numeric_cols _) as [|c0 rest]; simpl in F;
        [discriminate|].
      injection F as ->. reflexivity.
  - intros path_exists reg reviews src doc reg' H.
    unfold main, merged in H.
    destruct (weekly_reviews reviews) as [wr|e]; simpl in H; [|discriminate].
    destruct (weekly_trend_of src) as [tw|e] eqn:Htw; simpl in H;
      [|discriminate].
    destruct (statistics _) as [s|e]; simpl in H; [|discriminate].
    destruct (register_korean_font_reportlab path_exists reg) as [f r].
    injection H as <- <-.
    pose proof Htw as Hinv.
    apply weekly_trend_of_inv in Hinv as [ks [_ [_ [Hm _]]]].
    destruct (trend_frame_metric src (map cell_date (t_date src)) ks)
      as [c Hc].
    exists tw, c. split; [reflexivity|].
    rewrite Hm, Hc. split; [reflexivity|].
    cbn [doc_data_cell doc_trend_label j_metric]. split; reflexivity.
Qed.

(** ** Data errors *)

(** X14.  A date cell that does not parse ends the run: [.dt] raises on
    the reviews column, [pd.to_datetime] on the trend column. *)
Lemma unparseable_dates_end_the_run (path_exists : string -> bool)
      (reg : registry) (reviews : list review) (src : trend_source) :
  (has_garbage (map r_at reviews) = true ->
   main path_exists reg reviews src = Raise AttributeError)
  /\ (forall wr, weekly_reviews reviews = Ok wr ->
                 has_garbage (t_date src) = true ->
                 main path_exists reg reviews src = Raise ParseError).
Proof.
  split.
  - intros H. unfold main, merged, weekly_reviews, read_csv_parse_dates.
    rewrite H. reflexivity.
  - intros wr Hwr H. unfold main, merged, weekly_trend_of, to_datetime.
    rewrite Hwr, H. reflexivity.
Qed.

(** ** A trend file without a numeric column *)

(** C4, the behaviour of the code where the claim fails.  The numeric
    columns are listed after iso_year and iso_week were added to the frame,
    so the list is never empty and the metric is never [None]: for a trend
    file with a text column only, the derived column iso_year is taken as
    the metric and the aggregation succeeds, with no data-shape error. *)
Theorem no_numeric_column_selects_iso_year :
  (forall src ds ks, exists c, trend_metric_col (trend_frame src ds ks) = Some c)
  /\ numeric_cols (t_cols textual_trend) = []
  /\ existsb (String.eqb preferred) (columns (t_cols textual_trend)) = false
  /\ weekly_trend_of textual_trend
     = Ok (mkTW (Some "iso_year"%string)
             [mkWT (2024, 1)%Z (Some 2024%Q); mkWT (2024, 2)%Z (Some 2024%Q)]).
Proof.
  split; [|repeat split].
  intros src ds ks. unfold trend_metric_col, trend_frame.
  destruct (existsb _ _); [eauto|].
  unfold int_column.
  destruct (numeric_cols_set_number "iso_week"
              (map (fun z => Some (inject_Z z)) (map snd ks))
              (set_column "iso_year"
                 (CNum (map (fun z => Some (inject_Z z)) (map fst ks)))
                 (set_column "date" (CDatetime ds) (t_cols src))))
    as [c [rest ->]].
  eauto.
Qed.

(** ** The statistics step *)

Lemma Qsum_map_ext {A : Type} (f g : A -> Q) (l : list A) :
  (forall a, f a == g a) -> Qsum (map f l) == Qsum (map g l).
Proof.
  intros H. induction l as [|a t IH]; simpl; [reflexivity|].
  rewrite IH, (H a). reflexivity.
Qed.

Lemma Qsum_map_perm {A : Type} (f : A -> Q) (l l' : list A) :
  Permutation l l' -> Qsum (map f l) == Qsum (map f l').
Proof.
  induction 1 as [|x l l' Hp IH|x y l|l l' l'' H1 IH1 H2 IH2]; simpl.
  - reflexivity.
  - rewrite IH. reflexivity.
  - ring.
  - rewrite IH1. exact IH2.
Qed.

Lemma Qmean_map_perm {A : Type} (f : A -> Q) (l l' : list A) :
  Permutation l l' -> Qmean (map f l) == Qmean (map f l').
Proof.
  intros H. unfold Qmean.
  rewrite !length_map, (Permutation_length H), (Qsum_map_perm f _ _ H).
  reflexivity.
Qed.

Lemma cross_perm {A : Type} (a b : A -> Q) (P P' : list A) :
  Permutation P P' -> cross a b P == cross a b P'.
Proof.
  intros H. unfold cross.
  rewrite (Qsum_map_perm _ _ _ H).
  apply Qsum_map_ext. intros p.
  rewrite (Qmean_map_perm a _ _ H), (Qmean_map_perm b _ _ H). reflexivity.
Qed.

Lemma combine_map_map {A B C : Type} (f : A -> B) (g : A -> C) (l : list A) :
  combine (map f l) (map g l) = map (fun p => (f p, g p)) l.
Proof. induction l as [|a t IH]; simpl; [reflexivity|]. rewrite IH. reflexivity. Qed.

Lemma dot_center {A : Type} (a b : A -> Q) (P : list A) :
  dot (center (map a P)) (center (map b P)) = cross a b P.
Proof.
  unfold dot, center, cross.
  rewrite !map_map, combine_map_map, map_map. reflexivity.
Qed.

Lemma corr_cross {A : Type} (a b : A -> Q) (P : list A) :
  corr (map a P) (map b P)
  = clip (Q2R (cross a b P)
          / (sqrt (Q2R (cross a a P)) * sqrt (Q2R (cross b b P)))).
Proof. unfold corr. cbv zeta. rewrite !dot_center. reflexivity. Qed.

Lemma corr_perm {A : Type} (a b : A -> Q) (P P' : list A) :
  Permutation P P' -> corr (map a P) (map b P) = corr (map a P') (map b P').
Proof.
  intros H. rewrite !corr_cross.
  rewrite (Qeq_eqR _ _ (cross_perm a b _ _ H)).
  rewrite (Qeq_eqR _ _ (cross_perm a a _ _ H)).
  rewrite (Qeq_eqR _ _ (cross_perm b b _ _ H)).
  reflexivity.
Qed.

Lemma filter_length_perm {A : Type} (f : A -> bool) (l l' : list A) :
  Permutation l l' -> length (filter f l) = length (filter f l').
Proof.
  induction 1 as [|x l l' Hp IH|x y l|l l' l'' H1 IH1 H2 IH2]; simpl.
  - reflexivity.
  - destruct (f x); simpl; congruence.
  - destruct (f x), (f y); reflexivity.
  - congruence.
Qed.

Lemma rank_in_perm (xs xs' : list Q) (v : Q) :
  Permutation xs xs' -> rank_in xs v = rank_in xs' v.
Proof.
  intros H. unfold rank_in.
  rewrite (filter_length_perm (fun x => Qltb x v) _ _ H).
  rewrite (filter_length_perm (fun x => Qeq_bool x v) _ _ H).
  reflexivity.
Qed.

Lemma rank_corr_perm {A : Type} (a b : A -> Q) (P P' : list A) :
  Permutation P P' ->
  corr (rankdata (map a P)) (rankdata (map b P))
  = corr (rankdata (map a P')) (rankdata (map b P')).
Proof.
  intros H. unfold rankdata. rewrite !map_map.
  rewrite (map_ext (fun p => rank_in (map a P) (a p))
                   (fun p => rank_in (map a P') (a p)))
    by (intros p; apply rank_in_perm, Permutation_map; exact H).
  rewrite (map_ext (fun p => rank_in (map b P) (b p))
                   (fun p => rank_in (map b P') (b p)))
    by (intros p; apply rank_in_perm, Permutation_map; exact H).
  apply (corr_perm (fun p => rank_in (map a P') (a p))
                   (fun p => rank_in (map b P') (b p)) _ _ H).
Qed.

Lemma is_constant_true_iff (l : list (option Q)) :
  is_constant l = true <->
  forall u v, In u l -> In v l -> exists a b, u = Some a /\ v = Some b /\ a == b.
Proof.
  destruct l as [|[x0|] t].
  - simpl. split; [intros _ u v []|reflexivity].
  - unfold is_constant. rewrite forallb_forall. split.
    + intros H u v Hu Hv.
      pose proof (H u Hu) as Eu. pose proof (H v Hv) as Ev.
      destruct u as [a|], v as [b|]; try discriminate.
      apply Qeq_bool_iff in Eu. apply Qeq_bool_iff in Ev.
      exists a, b. repeat split. rewrite Eu, Ev. reflexivity.
    + intros H v Hv.
      destruct (H v (Some x0) Hv (or_introl eq_refl)) as [a [b [-> [Hb Hab]]]].
      injection Hb as <-. apply Qeq_bool_iff. exact Hab.
  - simpl. split; [discriminate|].
    intros H.
    destruct (H None None (or_introl eq_refl) (or_introl eq_refl))
      as [a [_ [Ha _]]].
    discriminate.
Qed.

Lemma is_constant_perm (l l' : list (option Q)) :
  Permutation l l' -> is_constant l = is_constant l'.
Proof.
  intros H. apply Bool.eq_iff_eq_true. rewrite !is_constant_true_iff.
  split; intros C u v Hu Hv; apply C;
    first [ eapply Permutation_in; [apply Permutation_sym|]; eassumption
          | eapply Permutation_in; eassumption ].
Qed.

Lemma forallb_perm {A : Type} (f : A -> bool) (l l' : list A) :
  Permutation l l' -> forallb f l = forallb f l'.
Proof.
  induction 1 as [|x l l' Hp IH|x y l|l l' l'' H1 IH1 H2 IH2]; simpl.
  - reflexivity.
  - rewrite IH. reflexivity.
  - destruct (f x), (f y); reflexivity.
  - congruence.
Qed.

Lemma finite_char (l : list (option Q)) :
  finite l = if forallb is_some l then Some (map val l) else None.
Proof.
  induction l as [|[q|] t IH]; simpl; [reflexivity| |reflexivity].
  rewrite IH. destruct (forallb is_some t); reflexivity.
Qed.

Lemma Qsign_swap (a b : Q) : Qsign (a - b) = (- Qsign (b - a))%Z.
Proof.
  unfold Qsign. rewrite <- Z.sgn_opp. f_equal.
  destruct a as [an ad], b as [bn bd]. simpl. ring.
Qed.

Lemma sign_product_swap (a0 a1 b0 b1 : option Q) :
  sign_product [a0; a1] [b0; b1] = sign_product [a1; a0] [b1; b0].
Proof.
  destruct a0 as [x0|], a1 as [x1|], b0 as [y0|], b1 as [y1|];
    simpl; try reflexivity.
  rewrite (Qsign_swap x1 x0), (Qsign_swap y1 y0).
  do 2 f_equal. ring.
Qed.

Section RowOrder.

Context {A : Type} (a b : A -> option Q).

Lemma finite_columns_perm (n : nat) (P P' : list A) :
  Permutation P P' ->
  match finite (map a P), finite (map b P) with
  | Some xs, Some ys => Ok (Fin (corr xs ys), PBeta n (corr xs ys))
  | _, _ => Ok (NaN, PNaN)
  end
  = match finite (map a P'), finite (map b P') with
    | Some xs, Some ys => Ok (Fin (corr xs ys), PBeta n (corr xs ys))
    | _, _ => Ok (NaN, PNaN)
    end.
Proof.
  intros H. rewrite !finite_char, !map_map.
  rewrite <- (forallb_perm is_some _ _ (Permutation_map a H)).
  rewrite <- (forallb_perm is_some _ _ (Permutation_map b H)).
  destruct (forallb is_some (map a P)), (forallb is_some (map b P));
    try reflexivity.
  rewrite (corr_perm (fun x => val (a x)) (fun x => val (b x)) _ _ H).
  reflexivity.
Qed.

Lemma pearsonr_perm (P P' : list A) :
  Permutation P P' ->
  pearsonr (map a P) (map b P) = pearsonr (map a P') (map b P').
Proof.
  intros H. unfold pearsonr. rewrite !length_map.
  rewrite <- (Permutation_length H).
  rewrite <- (is_constant_perm _ _ (Permutation_map a H)).
  rewrite <- (is_constant_perm _ _ (Permutation_map b H)).
  rewrite Nat.eqb_refl. simpl negb. cbv iota.
  destruct (length P <? 2)%nat; [reflexivity|].
  destruct (is_constant (map a P) || is_constant (map b P)); [reflexivity|].
  destruct (length P =? 2)%nat eqn:E2.
  - destruct P as [|p [|q [|r t]]]; try discriminate.
    apply Permutation_length_2_inv in H as [->| ->]; [reflexivity|].
    cbn [map]. rewrite sign_product_swap. reflexivity.
  - apply finite_columns_perm. exact H.
Qed.

Lemma spearmanr_perm (P P' : list A) :
  Permutation P P' ->
  spearmanr (map a P) (map b P) = spearmanr (map a P') (map b P').
Proof.
  intros H. unfold spearmanr. rewrite !length_map.
  rewrite <- (Permutation_length H).
  rewrite <- (is_constant_perm _ _ (Permutation_map a H)).
  rewrite <- (is_constant_perm _ _ (Permutation_map b H)).
  destruct (length P <=? 1)%nat; [reflexivity|].
  destruct (is_constant (map a P) || is_constant (map b P)); [reflexivity|].
  rewrite !finite_char, !map_map.
  rewrite <- (forallb_perm is_some _ _ (Permutation_map a H)).
  rewrite <- (forallb_perm is_some _ _ (Permutation_map b H)).
  destruct (forallb is_some (map a P)), (forallb is_some (map b P));
    try reflexivity.
  cbv zeta.
  rewrite (rank_corr_perm (fun x => val (a x)) (fun x => val (b x)) _ _ H).
  reflexivity.
Qed.

End RowOrder.

(** In exact arithmetic the statistics do not depend on the order of the
    rows.  This says nothing of the last bits of a coefficient computed in
    doubles, where the order of a sum shows. *)
Lemma statistics_perm (m m' : list merged_row) :
  Permutation m m' -> statistics m = statistics m'.
Proof.
  intros H. unfold statistics. cbv zeta.
  rewrite (pearsonr_perm trend_mean avg_score _ _ H).
  rewrite (spearmanr_perm trend_mean avg_score _ _ H).
  reflexivity.
Qed.

Lemma statistics_returns (m : list merged_row) :
  (2 <= length m)%nat -> exists s, statistics m = Ok s.
Proof.
  intros Hlen. unfold statistics, pearsonr, spearmanr. cbv zeta.
  rewrite !length_map, Nat.eqb_refl. simpl negb. cbv iota.
  destruct (Nat.ltb_spec (length m) 2) as [Hlt|_]; [lia|].
  destruct (Nat.leb_spec (length m) 1) as [Hle|_]; [lia|].
  destruct (is_constant (map trend_mean m) || is_constant (map avg_score m));
    simpl; [eauto|].
  destruct (length m =? 2)%nat; simpl.
  - destruct (finite (map trend_mean m)), (finite (map avg_score m));
      simpl; eauto.
  - destruct (finite (map trend_mean m)), (finite (map avg_score m));
      simpl; eauto.
Qed.

(** *** Too little data *)

(** C1, where the claim fails.  No overlapping week: the joined table is
    empty and the run ends in the ValueError of pearsonr.  Two weeks with
    the same mean score: nothing is raised and nan is printed in the
    statistics table. *)
Lemma statistics_unguarded_counterexample :
  (merged scen_reviews later_trend = Ok (mkJoined (Some "metric"%string) [])
   /\ main (fun _ => false) [] scen_reviews later_trend = Raise ValueError
   /\ insufficient []
   /\ crashes (statistics [])
   /\ (reports_insufficient_data [] -> False))
  /\ (main (fun _ => false) [] named_reviews named_trend
      = Ok (named_document, [])
      /\ insufficient flat_scores
      /\ nan_reaches_document (statistics flat_scores)
      /\ (reports_insufficient_data flat_scores -> False)).
Proof.
  assert (C : crashes (statistics [])) by (exists ValueError; reflexivity).
  assert (N : nan_reaches_document (statistics flat_scores))
    by (exists nan_stats; split; reflexivity).
  split.
  - split; [reflexivity|]. split; [reflexivity|].
    split; [left; simpl; lia|].
    split; [exact C|]. intros [H _]. exact (H C).
  - split; [reflexivity|].
    split; [right; right; reflexivity|].
    split; [exact N|]. intros [_ H]. exact (H N).
Qed.

(** C1, as the code behaves.  On a joined table with fewer than two rows
    the statistics step raises ValueError; on one with at least two rows
    and a constant trend-mean or mean-score series it raises nothing and
    returns NaN for both coefficients and both significance values, which
    the report prints as nan. *)
Theorem statistics_on_insufficient_data (m : list merged_row) :
  insufficient m ->
  statistics m
  = (if (length m <? 2)%nat then Raise ValueError else Ok nan_stats)
  /\ (forall s, statistics m = Ok s ->
                pearson_cell s = [Fixed3 NaN; Lit " (p="; Sci2 PNaN; Lit ")"]
                /\ spearman_cell s
                   = [Fixed3 NaN; Lit " (p="; Sci2 PNaN; Lit ")"]).
Proof.
  intros H.
  assert (E : statistics m
              = if (length m <? 2)%nat then Raise ValueError else Ok nan_stats).
  { unfold statistics, pearsonr, spearmanr. cbv zeta.
    rewrite !length_map, Nat.eqb_refl. simpl negb. cbv iota.
    destruct (Nat.ltb_spec (length m) 2) as [Hlt|Hge]; [reflexivity|].
    destruct (Nat.leb_spec (length m) 1) as [Hle|_]; [lia|].
    assert (O : is_constant (map trend_mean m)
                || is_constant (map avg_score m) = true).
    { destruct H as [H|[H|H]]; [lia| |]; rewrite H;
        [reflexivity|apply orb_true_r]. }
    rewrite O. reflexivity. }
  split; [exact E|].
  intros s Hs. rewrite E in Hs.
  destruct (length m <? 2)%nat; [discriminate|].
  injection Hs as <-. split; reflexivity.
Qed.

Lemma statistics_on_insufficient_data_witness :
  statistics flat_scores
  = (if (length flat_scores <? 2)%nat then Raise ValueError else Ok nan_stats)
  /\ (forall s, statistics flat_scores = Ok s ->
                pearson_cell s = [Fixed3 NaN; Lit " (p="; Sci2 PNaN; Lit ")"]
                /\ spearman_cell s
                   = [Fixed3 NaN; Lit " (p="; Sci2 PNaN; Lit ")"]).
Proof.
  apply statistics_on_insufficient_data.
  right. right. reflexivity.
Defined.

(** * Further properties of the code *)

Section CalendarFacts.
Local Open Scope Z_scope.

(** ** ISO weeks *)

Lemma dby_step (y : Z) :
  days_before_year (y + 1) - days_before_year y
  = 365 + (if is_leap y then 1 else 0).
Proof.
  unfold days_before_year, is_leap.
  replace (y + 1 - 1) with y by lia.
  destruct (y mod 4 =? 0) eqn:E4; destruct (y mod 100 =? 0) eqn:E100;
    destruct (y mod 400 =? 0) eqn:E400; simpl;
    rewrite ?Z.eqb_eq, ?Z.eqb_neq in *; Z.div_mod_to_equations; lia.
Qed.

Lemma first_day_ordinal y : ymd2ord y 1 1 = days_before_year y + 1.
Proof. unfold ymd2ord, days_before_month. simpl. lia. Qed.

Lemma w1m_spec y :
  exists k, isoweek1monday y = 7 * k + 1
            /\ days_before_year y - 2 <= isoweek1monday y <= days_before_year y + 4.
Proof.
  unfold isoweek1monday. cbv zeta. rewrite first_day_ordinal.
  set (D := days_before_year y).
  destruct (Z.ltb_spec 3 ((D + 1 + 6) mod 7)) as [E|E].
  - exists ((D + 1 - (D + 1 + 6) mod 7 + 7 - 1) / 7).
    Z.div_mod_to_equations. lia.
  - exists ((D + 1 - (D + 1 + 6) mod 7 - 1) / 7).
    Z.div_mod_to_equations. lia.
Qed.

Lemma ordinal_bounds d :
  valid_date d = true ->
  days_before_year (year d) + 1 <= ordinal d <= days_before_year (year d + 1).
Proof.
  unfold valid_date, ordinal, ymd2ord. destruct d as [y m dd]; simpl.
  rewrite !andb_true_iff, !Z.leb_le. intros [[[[Hy Hm1] Hm2] Hd1] Hd2].
  pose proof (dby_step y) as S.
  assert (M : m = 1 \/ m = 2 \/ m = 3 \/ m = 4 \/ m = 5 \/ m = 6 \/ m = 7 \/ m = 8
              \/ m = 9 \/ m = 10 \/ m = 11 \/ m = 12) by lia.
  unfold days_before_month, days_in_month in *.
  destruct (is_leap y);
  destruct M as [->|[->|[->|[->|[->|[->|[->|[->|[->|[->|[->| ->]]]]]]]]]]];
    simpl in *; lia.
Qed.

(** X5.  For every valid date the ISO week lies in 1..53, the ISO year is
    the calendar year or one of its two neighbours, and the ISO weekday
    lies in 1..7. *)
Theorem isocalendar_bounds d :
  valid_date d = true ->
  1 <= isocal_week d <= 53
  /\ year d - 1 <= isocal_year d <= year d + 1
  /\ 1 <= snd (isocalendar d) <= 7.
Proof.
  intros V. pose proof (ordinal_bounds d V) as [Lo Hi].
  unfold isocal_week, isocal_year, isocalendar. cbv zeta.
  set (y := year d) in *. set (t := ordinal d) in *.
  destruct (w1m_spec y) as [k [Ek [Bk1 Bk2]]].
  destruct (w1m_spec (y + 1)) as [k1 [Ek1 [Bk11 Bk12]]].
  destruct (w1m_spec (y - 1)) as [k0 [Ek0 [Bk01 Bk02]]].
  pose proof (dby_step y) as S1.
  pose proof (dby_step (y - 1)) as S0. replace (y - 1 + 1) with y in S0 by lia.
  assert (L1 : 0 <= (if is_leap y then 1 else 0) <= 1) by (destruct (is_leap y); lia).
  assert (L0 : 0 <= (if is_leap (y-1) then 1 else 0) <= 1) by (destruct (is_leap (y-1)); lia).
  set (W := isoweek1monday y) in *.
  set (W1 := isoweek1monday (y + 1)) in *.
  set (W0 := isoweek1monday (y - 1)) in *.
  destruct ((t - W) / 7 <? 0) eqn:E1; [apply Z.ltb_lt in E1|apply Z.ltb_ge in E1].
  - simpl. Z.div_mod_to_equations. lia.
  - destruct ((52 <=? (t - W) / 7) && (W1 <=? t)) eqn:E2.
    + simpl. Z.div_mod_to_equations. lia.
    + simpl. apply andb_false_iff in E2.
      rewrite Z.leb_gt, Z.leb_gt in E2.
      Z.div_mod_to_equations. lia.
Qed.

End CalendarFacts.

(** ** The chart font resolver *)

Lemma available_in_In (names : list string) (c : string) :
  available_in names c = true <-> In c names.
Proof.
  unfold available_in. rewrite existsb_exists. split.
  - intros [x [Hin Heq]]. apply String.eqb_eq in Heq. subst. assumption.
  - intros Hin. exists c. split; [assumption|apply String.eqb_refl].
Qed.

Lemma first_candidate_Some (cs names : list string) (c : string) :
  first_candidate cs names = Some c <->
  exists pre post, cs = pre ++ c :: post
                   /\ In c names
                   /\ forall p, In p pre -> ~ In p names.
Proof.
  induction cs as [|c0 rest IH]; simpl.
  - split; [discriminate|]. intros [pre [post [E _]]].
    destruct pre; discriminate.
  - destruct (available_in names c0) eqn:A.
    + apply available_in_In in A. split.
      * intros H; injection H as <-. exists [], rest. simpl. intuition.
      * intros [pre [post [E [Hin Hpre]]]].
        destruct pre as [|p pre']; simpl in E; injection E as <- E.
        -- reflexivity.
        -- exfalso. apply (Hpre c0); [left; reflexivity|assumption].
    + assert (N : ~ In c0 names).
      { intros Hin. apply available_in_In in Hin. congruence. }
      rewrite IH. split.
      * intros [pre [post [-> [Hin Hpre]]]].
        exists (c0 :: pre), post. simpl. split; [reflexivity|].
        split; [assumption|]. intros p [<-|Hp]; auto.
      * intros [pre [post [E [Hin Hpre]]]].
        destruct pre as [|p pre']; simpl in E; injection E as <- E.
        -- contradiction.
        -- exists pre', post. split; [assumption|]. split; [assumption|].
           intros q Hq. apply Hpre. right. assumption.
Qed.

Lemma first_candidate_None (cs names : list string) :
  first_candidate cs names = None <-> forall c, In c cs -> ~ In c names.
Proof.
  induction cs as [|c0 rest IH]; simpl.
  - split; [intros _ c []|reflexivity].
  - destruct (available_in names c0) eqn:A.
    + apply available_in_In in A. split; [discriminate|].
      intros H. exfalso. apply (H c0); auto.
    + rewrite IH. split.
      * intros H c [<-|Hc]; [|auto].
        intros Hin. apply available_in_In in Hin. congruence.
      * intros H c Hc. apply H. right. assumption.
Qed.

Lemma first_hinted_Some (lower : string -> string) (fonts : list string)
      (f : string) :
  first_hinted lower fonts = Some f <->
  exists pre post, fonts = pre ++ f :: post
                   /\ hinted lower f = true
                   /\ forall p, In p pre -> hinted lower p = false.
Proof.
  induction fonts as [|f0 rest IH]; simpl.
  - split; [discriminate|]. intros [pre [post [E _]]].
    destruct pre; discriminate.
  - destruct (hinted lower f0) eqn:A.
    + split.
      * intros H; injection H as <-. exists [], rest. simpl. intuition.
      * intros [pre [post [E [Hh Hpre]]]].
        destruct pre as [|p pre']; simpl in E; injection E as <- E.
        -- reflexivity.
        -- rewrite (Hpre f0) in A; [discriminate|left; reflexivity].
    + rewrite IH. split.
      * intros [pre [post [-> [Hh Hpre]]]].
        exists (f0 :: pre), post. simpl. split; [reflexivity|].
        split; [assumption|]. intros p [<-|Hp]; auto.
      * intros [pre [post [E [Hh Hpre]]]].
        destruct pre as [|p pre']; simpl in E; injection E as <- E.
        -- congruence.
        -- exists pre', post. split; [assumption|]. split; [assumption|].
           intros q Hq. apply Hpre. right. assumption.
Qed.

Lemma first_hinted_None (lower : string -> string) (fonts : list string) :
  first_hinted lower fonts = None <->
  forall f, In f fonts -> hinted lower f = false.
Proof.
  induction fonts as [|f0 rest IH]; simpl.
  - split; [intros _ f []|reflexivity].
  - destruct (hinted lower f0) eqn:A.
    + split; [discriminate|]. intros H.
      rewrite (H f0 (or_introl eq_refl)) in A. discriminate.
    + rewrite IH. split.
      * intros H f [<-|Hf]; auto.
      * intros H f Hf. apply H. right. assumption.
Qed.

(** X1.  When one of the preferred families is listed by the font manager
    at entry, the resolver returns the first family of the preference list
    that is listed, and runs no command and no reload. *)
Theorem chart_font_first_installed_candidate
        (lower : string -> string) (h : font_host) (c : string) :
  In c candidates ->
  In c (ttflist_cached h) ->
  exists c0 pre post,
    ensure_korean_font_matplotlib lower h = (Some c0, [])
    /\ candidates = pre ++ c0 :: post
    /\ In c0 (ttflist_cached h)
    /\ forall p, In p pre -> ~ In p (ttflist_cached h).
Proof.
  intros Hc Hin. unfold ensure_korean_font_matplotlib.
  destruct (first_candidate candidates (ttflist_cached h)) as [c0|] eqn:E.
  - apply first_candidate_Some in E as [pre [post [E1 [E2 E3]]]].
    exists c0, pre, post. auto.
  - exfalso. exact (proj1 (first_candidate_None _ _) E c Hc Hin).
Qed.

Lemma chart_font_first_installed_candidate_witness :
  exists c0 pre post,
    ensure_korean_font_matplotlib ascii_lower office_host = (Some c0, [])
    /\ candidates = pre ++ c0 :: post
    /\ In c0 (ttflist_cached office_host)
    /\ forall p, In p pre -> ~ In p (ttflist_cached office_host).
Proof.
  apply (chart_font_first_installed_candidate ascii_lower office_host
           "Malgun Gothic").
  - right. left. reflexivity.
  - right. left. reflexivity.
Defined.

Lemma ensure_commands (lower : string -> string) (h : font_host) :
  snd (ensure_korean_font_matplotlib lower h)
  = match first_candidate candidates (ttflist_cached h) with
    | Some _ => []
    | None => provision h
    end.
Proof.
  unfold ensure_korean_font_matplotlib.
  destruct (first_candidate candidates (ttflist_cached h)); [reflexivity|].
  destruct (first_candidate candidates (ttflist_rescanned h)); reflexivity.
Qed.

(** X2.  Provisioning is best effort.  Commands run exactly when no
    preferred family is listed at entry; then apt-get comes first, fc-cache
    follows only when apt-get ended well, and the reload closes the
    sequence.  The font returned does not depend on how the commands
    ended, only on the names listed at entry and after the reload. *)
Theorem chart_font_provisioning_is_best_effort
        (lower : string -> string) (cached rescanned : list string)
        (a f a' f' : bool) :
  let r := ensure_korean_font_matplotlib lower (mkHost cached a f rescanned) in
  fst r
  = fst (ensure_korean_font_matplotlib lower (mkHost cached a' f' rescanned))
  /\ (snd r = []
      \/ snd r = AptInstallNanum
                 :: (if a then [FcCache] else []) ++ [LoadFontManager])
  /\ (snd r = [] <-> exists c, In c candidates /\ In c cached).
Proof.
  cbv zeta. split; [|split].
  - unfold ensure_korean_font_matplotlib.
    cbn [ttflist_cached ttflist_rescanned].
    destruct (first_candidate candidates cached); [reflexivity|].
    destruct (first_candidate candidates rescanned); reflexivity.
  - rewrite ensure_commands. unfold provision.
    cbn [ttflist_cached apt_ok].
    destruct (first_candidate candidates cached); [left|right]; reflexivity.
  - rewrite ensure_commands. cbn [ttflist_cached].
    destruct (first_candidate candidates cached) as [c|] eqn:E.
    + split; [intros _|reflexivity].
      apply first_candidate_Some in E as [pre [post [E1 [E2 _]]]].
      exists c. split; [|assumption]. rewrite E1. apply in_elt.
    + split; [discriminate|]. intros [c [Hc Hin]].
      exfalso. exact (proj1 (first_candidate_None _ _) E c Hc Hin).
Qed.

(** X3.  A name the resolver returns is listed by the font manager, at
    entry or after the reload, and is a preferred family or has nanum,
    noto or gothic in its lower-cased name.  It returns None only when no
    preferred family is listed at either time and no name listed after the
    reload has such a hint. *)
Theorem chart_font_result_is_installed
        (lower : string -> string) (h : font_host) :
  match fst (ensure_korean_font_matplotlib lower h) with
  | Some n =>
      (In n (ttflist_cached h) \/ In n (ttflist_rescanned h))
      /\ (In n candidates \/ hinted lower n = true)
  | None =>
      (forall c, In c candidates ->
                 ~ In c (ttflist_cached h) /\ ~ In c (ttflist_rescanned h))
      /\ (forall f, In f (ttflist_rescanned h) -> hinted lower f = false)
  end.
Proof.
  unfold ensure_korean_font_matplotlib.
  destruct (first_candidate candidates (ttflist_cached h)) as [c|] eqn:E1;
    cbn [fst].
  - apply first_candidate_Some in E1 as [pre [post [E [Hin _]]]].
    split; [left; assumption|]. left. rewrite E. apply in_elt.
  - destruct (first_candidate candidates (ttflist_rescanned h)) as [c|] eqn:E2;
      cbn [fst].
    + apply first_candidate_Some in E2 as [pre [post [E [Hin _]]]].
      split; [right; assumption|]. left. rewrite E. apply in_elt.
    + destruct (first_hinted lower (ttflist_rescanned h)) as [f|] eqn:E3.
      * apply first_hinted_Some in E3 as [pre [post [E [Hh _]]]].
        split; [right; rewrite E; apply in_elt|]. right. assumption.
      * split.
        -- intros c Hc. split.
           ++ exact (proj1 (first_candidate_None _ _) E1 c Hc).
           ++ exact (proj1 (first_candidate_None _ _) E2 c Hc).
        -- apply first_hinted_None. assumption.
Qed.

Lemma resolved_name_not_empty (lower : string -> string) (h : font_host) :
  lower EmptyString = EmptyString ->
  fst (ensure_korean_font_matplotlib lower h) <> Some EmptyString.
Proof.
  intros L E. pose proof (chart_font_result_is_installed lower h) as R.
  rewrite E in R. destruct R as [_ [Hc|Hh]].
  - simpl in Hc. repeat (destruct Hc as [Hc|Hc]; [discriminate|]). exact Hc.
  - unfold hinted in Hh. rewrite L in Hh. discriminate.
Qed.

(** X4.  Lines 77-80: a resolved name is never empty, so the truth test of
    line 78 loses no font: font.family is the resolved font when there is
    one and is left as it was otherwise; axes.unicode_minus is False in
    either case; no other setting changes; the commands run are those of
    the resolver. *)
Theorem chart_settings_follow_resolver
        (lower : string -> string) (h : font_host) (rc : rcparams) :
  lower EmptyString = EmptyString ->
  let rc' := fst (setup_chart_font lower h rc) in
  rc' "font.family"%string
  = match fst (ensure_korean_font_matplotlib lower h) with
    | Some n => Some (RcStr n)
    | None => rc "font.family"%string
    end
  /\ rc' "axes.unicode_minus"%string = Some (RcBool false)
  /\ (forall k, k <> "font.family"%string ->
                k <> "axes.unicode_minus"%string -> rc' k = rc k)
  /\ snd (setup_chart_font lower h rc)
     = snd (ensure_korean_font_matplotlib lower h).
Proof.
  intros L. pose proof (resolved_name_not_empty lower h L) as NE.
  unfold setup_chart_font. cbv zeta.
  destruct (ensure_korean_font_matplotlib lower h) as [[n|] cmds];
    simpl in *.
  - destruct (String.eqb n EmptyString) eqn:E.
    + apply String.eqb_eq in E. subst. congruence.
    + unfold rc_set. simpl. repeat split.
      intros k K1 K2.
      apply String.eqb_neq in K1. apply String.eqb_neq in K2.
      rewrite K2, K1. reflexivity.
  - unfold rc_set. simpl. repeat split.
    intros k K1 K2. apply String.eqb_neq in K2. rewrite K2. reflexivity.
Qed.

Lemma chart_settings_follow_resolver_witness :
  let rc' := fst (setup_chart_font ascii_lower office_host blank_rc) in
  rc' "font.family"%string
  = match fst (ensure_korean_font_matplotlib ascii_lower office_host) with
    | Some n => Some (RcStr n)
    | None => blank_rc "font.family"%string
    end
  /\ rc' "axes.unicode_minus"%string = Some (RcBool false)
  /\ (forall k, k <> "font.family"%string ->
                k <> "axes.unicode_minus"%string -> rc' k = blank_rc k)
  /\ snd (setup_chart_font ascii_lower office_host blank_rc)
     = snd (ensure_korean_font_matplotlib ascii_lower office_host).
Proof.
  apply chart_settings_follow_resolver. reflexivity.
Defined.

(** ** Effects of a run *)

Lemma setup_writes_nothing (cmds : list command) :
  filter writes_file (MakeDirs OUT_DIR :: map Provision cmds) = [].
Proof.
  simpl. induction cmds as [|c t IH]; simpl; [reflexivity|exact IH].
Qed.

Lemma registrations_write_nothing (reg : registry) :
  filter writes_file (map (fun p => RegisterFont (fst p) (snd p)) reg) = [].
Proof.
  induction reg as [|p t IH]; simpl; [reflexivity|exact IH].
Qed.

Lemma full_trace_writes (cmds : list command) (reg : registry) :
  filter writes_file
    ((MakeDirs OUT_DIR :: map Provision cmds)
       ++ [SaveFig line_path; SaveFig scatter_path; SaveFig bubble_path]
       ++ map (fun p => RegisterFont (fst p) (snd p)) reg
       ++ [BuildPdf pdf_path;
           PrintSaved [line_path; scatter_path; bubble_path; pdf_path]])
  = [SaveFig line_path; SaveFig scatter_path; SaveFig bubble_path;
     BuildPdf pdf_path].
Proof.
  rewrite !filter_app, setup_writes_nothing, registrations_write_nothing.
  reflexivity.
Qed.

(** X19.  A run that ends in an exception of the data or statistics steps
    has written no chart and no PDF; a run that returns has written the
    three charts and then the PDF, in this order.  Which of the two
    happens is what [main] returns. *)
Theorem outputs_written_only_after_data_steps
        (lower : string -> string) (h : font_host)
        (path_exists : string -> bool) (reg : registry)
        (reviews : list review) (src : trend_source) :
  let r := run lower h path_exists reviews src in
  (exists e,
      main path_exists reg reviews src = Raise e
      /\ snd r = Raise e
      /\ filter writes_file (fst r) = [])
  \/ (exists d reg',
         main path_exists reg reviews src = Ok (d, reg')
         /\ snd r = Ok tt
         /\ filter writes_file (fst r)
            = [SaveFig line_path; SaveFig scatter_path; SaveFig bubble_path;
               BuildPdf pdf_path]).
Proof.
  cbv zeta. unfold run, main.
  destruct (merged reviews src) as [j|e]; cbn [bind].
  - destruct (statistics (j_rows j)) as [s|e]; cbn [bind].
    + right.
      destruct (register_korean_font_reportlab path_exists reg) as [f r1].
      destruct (register_korean_font_reportlab path_exists []) as [f0 r0].
      eexists. eexists. split; [reflexivity|]. split; [reflexivity|].
      exact (full_trace_writes _ r0).
    + left. exists e. split; [reflexivity|]. split; [reflexivity|].
      apply setup_writes_nothing.
  - left. exists e. split; [reflexivity|]. split; [reflexivity|].
    apply setup_writes_nothing.
Qed.

(** ** Bullet paragraphs *)

Lemma append_assoc (a b c : string) :
  ((a ++ b) ++ c = a ++ (b ++ c))%string.
Proof.
  induction a as [|x a IH]; simpl; [reflexivity|]. rewrite IH. reflexivity.
Qed.

(** X20.  [bullet] puts the bullet sign in front of every item and the
    line break between the items; for no item at all it still gives one
    bullet sign. *)
Theorem bullet_marks_every_item (items : list string) :
  bullet items
  = match items with
    | [] => "• "%string
    | _ => String.concat "<br/>" (map (fun i => ("• " ++ i)%string) items)
    end.
Proof.
  unfold bullet. destruct items as [|x rest]; [reflexivity|].
  revert x. induction rest as [|y rest IH]; intros x.
  - reflexivity.
  - change (String.concat "<br/>• " (x :: y :: rest))
      with (x ++ "<br/>• " ++ String.concat "<br/>• " (y :: rest))%string.
    change (String.concat "<br/>"
              (map (fun i => ("• " ++ i)%string) (x :: y :: rest)))
      with (("• " ++ x) ++ "<br/>"
            ++ String.concat "<br/>"
                 (map (fun i => ("• " ++ i)%string) (y :: rest)))%string.
    rewrite <- (IH y). rewrite !append_assoc. reflexivity.
Qed.

(** ** Order of the joined rows *)

Lemma matching_rows_at_most_one (k : key) (r : list weekly_trend) :
  NoDup (map wt_key r) ->
  filter (fun b => key_eqb k (wt_key b)) r = []
  \/ exists b, filter (fun b => key_eqb k (wt_key b)) r = [b].
Proof.
  intros Hnd. pose proof (matching_rows_count k r Hnd) as C.
  destruct (filter (fun b => key_eqb k (wt_key b)) r) as [|b [|b' t]].
  - left. reflexivity.
  - right. exists b. reflexivity.
  - simpl in C. destruct (existsb (key_eqb k) (map wt_key r)); discriminate.
Qed.

Lemma merged_of_cons (a : weekly_review) (l : list weekly_review)
      (r : list weekly_trend) :
  merged_of (a :: l) r
  = map (fun b => merged_row_of (a, b))
        (filter (fun b => key_eqb (wr_key a) (wt_key b)) r)
    ++ merged_of l r.
Proof.
  unfold merged_of, merge. simpl. rewrite map_app, map_map. reflexivity.
Qed.

Lemma merged_keys_sorted (l : list weekly_review) (r : list weekly_trend) :
  StronglySorted key_lt (map wr_key l) ->
  NoDup (map wt_key r) ->
  StronglySorted key_lt (map row_key (merged_of l r)).
Proof.
  intros Hs Hnd. induction l as [|a t IH].
  - constructor.
  - simpl in Hs. inversion Hs as [|? ? Hs' Hall]; subst.
    specialize (IH Hs'). rewrite merged_of_cons.
    destruct (matching_rows_at_most_one (wr_key a) r Hnd) as [->|[b ->]];
      cbn [map app]; [exact IH|].
    constructor; [exact IH|].
    rewrite merged_row_of_key.
    apply Forall_forall. intros k Hk.
    apply merged_of_keys in Hk as [Hk _].
    rewrite Forall_forall in Hall. auto.
Qed.

Lemma reviews_keys_from_valid_dates (reviews : list review)
      (wr : list weekly_review) (k : key) :
  (forall d, In (DateText d) (map r_at reviews) -> valid_date d = true) ->
  weekly_reviews reviews = Ok wr ->
  In k (map wr_key wr) ->
  (1 <= snd k <= 53)%Z.
Proof.
  intros V H Hk.
  apply weekly_reviews_inv in H as [ks [_ [Hks ->]]].
  assert (Hlen : length ks = length (map r_score reviews)).
  { apply iso_keys_weeks in Hks.
    apply (f_equal (@length _)) in Hks. rewrite !length_map in *. lia. }
  rewrite agg_reviews_keys, group_keys_In in Hk.
  rewrite (map_fst_combine ks (map r_score reviews) Hlen) in Hk.
  apply (iso_keys_In _ _ k Hks) in Hk as [d [Hin ->]].
  simpl. apply isocalendar_bounds. apply V. assumption.
Qed.

(** X8.  When the review timestamps are valid dates, the rows of the
    joined table stand in strictly increasing order of week_index, the
    x value of the line chart. *)
Theorem merged_rows_increase_in_week_index
        (reviews : list review) (src : trend_source) (j : joined) :
  (forall d, In (DateText d) (map r_at reviews) -> valid_date d = true) ->
  merged reviews src = Ok j ->
  StronglySorted (fun r r' => (week_index r < week_index r')%Z) (j_rows j).
Proof.
  intros V H. unfold merged in H.
  destruct (weekly_reviews reviews) as [wr|e] eqn:Hr; simpl in H;
    [|discriminate].
  destruct (weekly_trend_of src) as [tw|e] eqn:Ht; simpl in H; [|discriminate].
  injection H as <-. simpl.
  assert (Hs : StronglySorted key_lt (map row_key (merged_of wr (tw_rows tw)))).
  { apply merged_keys_sorted.
    - apply weekly_reviews_inv in Hr as [ks [_ [_ ->]]].
      rewrite agg_reviews_keys. apply group_keys_sorted.
    - apply weekly_trend_of_inv in Ht as [ks [_ [_ [_ Hagg]]]].
      rewrite (agg_trend_keys _ _ _ _ Hagg). apply group_keys_NoDup. }
  assert (Hb : forall row, In row (merged_of wr (tw_rows tw)) ->
                           week_index row
                           = week_index_of (fst (row_key row)) (snd (row_key row))
                           /\ (1 <= snd (row_key row) <= 53)%Z).
  { intros row Hin. split.
    - apply (merged_week_index wr (tw_rows tw)). assumption.
    - apply (reviews_keys_from_valid_dates reviews wr (row_key row) V Hr).
      apply (merged_of_keys wr (tw_rows tw)). apply in_map. assumption. }
  revert Hs Hb. generalize (merged_of wr (tw_rows tw)) as rows.
  induction rows as [|x t IH]; intros Hs Hb; [constructor|].
  simpl in Hs. inversion Hs as [|? ? Hs' Hall]; subst.
  constructor.
  - apply IH; [exact Hs'|]. intros row Hin. apply Hb. right. assumption.
  - apply Forall_forall. intros y Hy.
    rewrite Forall_forall in Hall.
    pose proof (Hall (row_key y) (in_map row_key _ _ Hy)) as Hlt.
    apply key_lt_spec in Hlt.
    destruct (Hb x (or_introl eq_refl)) as [-> Bx].
    destruct (Hb y (or_intror Hy)) as [-> By].
    unfold week_index_of. lia.
Qed.

(** ** Row order of the reviews file *)

Lemma iso_keys_char (cells : list date_cell) :
  iso_keys (map cell_date cells)
  = if forallb is_date cells then Ok (map key_of_cell cells)
    else Raise IntCastingNaN.
Proof.
  induction cells as [|c t IH]; simpl; [reflexivity|].
  destruct c as [d| |]; simpl; try reflexivity.
  rewrite IH. destruct (forallb is_date t); reflexivity.
Qed.

Lemma weekly_reviews_char (reviews : list review) :
  weekly_reviews reviews
  = if has_garbage (map r_at reviews) then Raise AttributeError
    else if forallb is_date (map r_at reviews)
         then Ok (agg_reviews
                    (map (fun r => (key_of_cell (r_at r), r_score r)) reviews))
         else Raise IntCastingNaN.
Proof.
  unfold weekly_reviews, read_csv_parse_dates.
  destruct (has_garbage (map r_at reviews)); [reflexivity|]. cbn [bind].
  rewrite iso_keys_char.
  destruct (forallb is_date (map r_at reviews)); [|reflexivity]. cbn [bind].
  rewrite map_map, combine_map_map. reflexivity.
Qed.






(** ** Counts of the weekly review aggregate *)

Lemma list_sum_map_add {A : Type} (f g : A -> nat) (l : list A) :
  list_sum (map (fun x => (f x + g x)%nat) l)
  = (list_sum (map f l) + list_sum (map g l))%nat.
Proof. induction l as [|a t IH]; simpl; lia. Qed.

Lemma indicator_sum (k0 : key) (keys : list key) :
  NoDup keys -> In k0 keys ->
  list_sum (map (fun k => if key_eqb k0 k then 1%nat else 0%nat) keys) = 1%nat.
Proof.
  induction keys as [|k t IH]; intros Hnd Hin; [destruct Hin|].
  inversion Hnd as [|? ? Hnotin Hnd']; subst. simpl.
  destruct (key_eqb k0 k) eqn:E.
  - apply key_eqb_eq in E. subst k.
    assert (Z : list_sum (map (fun k => if key_eqb k0 k then 1%nat else 0%nat) t)
                = 0%nat).
    { clear IH Hnd Hin Hnd'. induction t as [|x t IH]; simpl; [reflexivity|].
      destruct (key_eqb k0 x) eqn:F.
      - apply key_eqb_eq in F. subst. exfalso. apply Hnotin. left. reflexivity.
      - apply IH. intros H. apply Hnotin. right. assumption. }
    rewrite Z. reflexivity.
  - destruct Hin as [->|Hin]; [rewrite key_eqb_refl in E; discriminate|].
    rewrite (IH Hnd' Hin). reflexivity.
Qed.

Lemma groups_partition {A : Type} (keys : list key) (l : list (key * A)) :
  NoDup keys ->
  (forall p, In p l -> In (fst p) keys) ->
  list_sum (map (fun k => length (group k l)) keys) = length l.
Proof.
  intros Hnd. induction l as [|p t IH]; intros Hin.
  - unfold group. simpl. clear Hnd Hin.
    induction keys as [|k ks IHk]; simpl; [reflexivity|exact IHk].
  - rewrite (map_ext (fun k => length (group k (p :: t)))
                     (fun k => ((if key_eqb (fst p) k then 1 else 0)
                                + length (group k t))%nat)).
    + rewrite list_sum_map_add, indicator_sum;
        [|assumption|apply Hin; left; reflexivity].
      rewrite IH; [reflexivity|]. intros q Hq. apply Hin. right. assumption.
    + intros k. unfold group. simpl.
      destruct (key_eqb (fst p) k); reflexivity.
Qed.

(** X10.  The weekly groups partition the review rows: the review counts
    of the aggregate add up to the number of review rows, and every week
    of the aggregate counts at least one row. *)
Theorem review_counts_partition_the_rows
        (reviews : list review) (wr : list weekly_review) :
  weekly_reviews reviews = Ok wr ->
  list_sum (map wr_review_count wr) = length reviews
  /\ Forall (fun row => (1 <= wr_review_count row)%nat) wr.
Proof.
  intros H. apply weekly_reviews_inv in H as [ks [_ [Hks ->]]].
  assert (Hlen : length ks = length reviews).
  { apply iso_keys_weeks in Hks.
    apply (f_equal (@length _)) in Hks. rewrite !length_map in *. lia. }
  set (keyed := combine ks (map r_score reviews)).
  assert (Hk : length keyed = length reviews).
  { unfold keyed. rewrite length_combine, length_map. lia. }
  split.
  - unfold agg_reviews. rewrite map_map. cbn [wr_review_count]. unfold size.
    rewrite <- Hk. apply groups_partition; [apply group_keys_NoDup|].
    intros p Hp. apply group_keys_In. apply in_map. assumption.
  - apply Forall_forall. intros row Hrow.
    unfold agg_reviews in Hrow. apply in_map_iff in Hrow as [k [<- Hin]].
    cbn [wr_review_count]. unfold size, group.
    apply (proj1 (group_keys_In _ _)) in Hin.
    apply in_map_iff in Hin as [p [Hp Hin]].
    assert (F : In p (filter (fun q => key_eqb (fst q) k) keyed)).
    { apply filter_In. split; [assumption|]. apply key_eqb_eq. assumption. }
    rewrite length_map.
    destruct (filter (fun q => key_eqb (fst q) k) keyed); [destruct F|].
    simpl. lia.
Qed.

(** ** Errors of the trend aggregation *)

Lemma numeric_cols_In (c : string) (df : frame) :
  In c (numeric_cols df) -> In c (columns df).
Proof.
  unfold numeric_cols, columns. rewrite !in_map_iff.
  intros [p [Hp Hin]]. apply filter_In in Hin as [Hin _]. eauto.
Qed.

Lemma metric_in_frame (df : frame) (c : string) :
  trend_metric_col df = Some c -> In c (columns df).
Proof.
  unfold trend_metric_col.
  destruct (existsb (String.eqb preferred) (columns df)) eqn:E.
  - intros H; injection H as <-. apply existsb_string_In. assumption.
  - destruct (numeric_cols df) as [|c0 rest] eqn:N; [discriminate|].
    intros H; injection H as <-. apply numeric_cols_In. rewrite N. left.
    reflexivity.
Qed.

Lemma weekly_trend_of_char (src : trend_source) :
  weekly_trend_of src
  = if has_garbage (t_date src) then Raise ParseError
    else if forallb is_date (t_date src)
         then let ks := map key_of_cell (t_date src) in
              let df := trend_frame src (map cell_date (t_date src)) ks in
              rows <- agg_trend ks (trend_metric_col df) df ;;
              Ok (mkTW (trend_metric_col df) rows)
         else Raise IntCastingNaN.
Proof.
  unfold weekly_trend_of, to_datetime.
  destruct (has_garbage (t_date src)); [reflexivity|]. cbn [bind].
  rewrite iso_keys_char.
  destruct (forallb is_date (t_date src)); reflexivity.
Qed.

Lemma weekly_trend_of_outcomes (src : trend_source) :
  (has_garbage (t_date src) = true
   /\ weekly_trend_of src = Raise ParseError)
  \/ (has_garbage (t_date src) = false
      /\ forallb is_date (t_date src) = false
      /\ weekly_trend_of src = Raise IntCastingNaN)
  \/ (has_garbage (t_date src) = false
      /\ forallb is_date (t_date src) = true
      /\ ((exists tw, weekly_trend_of src = Ok tw)
          \/ weekly_trend_of src = Raise TypeError)).
Proof.
  rewrite weekly_trend_of_char.
  destruct (has_garbage (t_date src)); [left; auto|]. right.
  destruct (forallb is_date (t_date src)); [right|left; auto].
  split; [reflexivity|]. split; [reflexivity|]. cbv zeta.
  set (ks := map key_of_cell (t_date src)).
  set (df := trend_frame src (map cell_date (t_date src)) ks).
  destruct (trend_frame_metric src (map cell_date (t_date src)) ks) as [c Hc].
  fold df in Hc. rewrite Hc.
  destruct (lookup_of_column c df (metric_in_frame df c Hc)) as [col Hcol].
  unfold agg_trend. rewrite Hcol.
  destruct col; cbn [bind]; eauto.
Qed.

(** X12.  On a trend file without a date column the trend half of the
    loader ends in KeyError, raised by line 94.  On a file with one it
    ends in exactly one of four ways, none of them KeyError: ParseError
    for a date that does not parse, the integer cast error for an empty
    date, TypeError from the mean, or a weekly table; the metric column
    picked on line 99 is always a column of the frame. *)
Theorem trend_loader_outcomes (f : trend_file) :
  match f_date f with
  | None => load_trend f = Raise KeyError
  | Some cells =>
      (has_garbage cells = true /\ load_trend f = Raise ParseError)
      \/ (has_garbage cells = false
          /\ forallb is_date cells = false
          /\ load_trend f = Raise IntCastingNaN)
      \/ (has_garbage cells = false
          /\ forallb is_date cells = true
          /\ ((exists tw, load_trend f = Ok tw)
              \/ load_trend f = Raise TypeError))
  end.
Proof.
  unfold load_trend. destruct (f_date f) as [cells|]; [|reflexivity].
  exact (weekly_trend_of_outcomes (mkTrend cells (f_cols f))).
Qed.

Lemma set_column_columns_In (n x : string) (c : column) (df : frame) :
  In x (columns (set_column n c df)) <-> x = n \/ In x (columns df).
Proof.
  induction df as [|[m c'] t IH]; simpl.
  - intuition.
  - destruct (String.eqb m n) eqn:E; simpl.
    + apply String.eqb_eq in E. subst. intuition.
    + rewrite IH. intuition.
Qed.

Lemma set_column_NoDup (n : string) (c : column) (df : frame) :
  NoDup (columns df) -> NoDup (columns (set_column n c df)).
Proof.
  induction df as [|[m c'] t IH]; simpl; intros Hnd.
  - repeat constructor. intros [].
  - inversion Hnd as [|? ? Hnotin Hnd']; subst.
    destruct (String.eqb m n) eqn:E; simpl.
    + apply String.eqb_eq in E. subst. constructor; assumption.
    + constructor; [|apply IH; assumption].
      intros Hin. apply set_column_columns_In in Hin as [->|Hin].
      * rewrite String.eqb_refl in E. discriminate.
      * contradiction.
Qed.

Lemma lookup_set_column_other (n m : string) (c : column) (df : frame) :
  n <> m -> lookup n (set_column m c df) = lookup n df.
Proof.
  intros Hne. induction df as [|[k c'] t IH]; simpl.
  - destruct (String.eqb m n) eqn:E; [|reflexivity].
    apply String.eqb_eq in E. congruence.
  - destruct (String.eqb k m) eqn:E; simpl.
    + apply String.eqb_eq in E. subst k.
      destruct (String.eqb m n) eqn:F; [|reflexivity].
      apply String.eqb_eq in F. congruence.
    + rewrite IH. reflexivity.
Qed.

Lemma first_numeric_lookup (df : frame) (c : string) (rest : list string) :
  NoDup (columns df) ->
  numeric_cols df = c :: rest ->
  exists vs, lookup c df = Some (CNum vs).
Proof.
  induction df as [|[m col] t IH]; simpl; intros Hnd H; [discriminate|].
  inversion Hnd as [|? ? Hnotin Hnd']; subst.
  unfold numeric_cols in H. simpl in H.
  destruct (is_number col) eqn:N.
  - simpl in H. injection H as <- _. rewrite String.eqb_refl.
    destruct col; try discriminate. eauto.
  - fold (numeric_cols t) in H.
    destruct (String.eqb m c) eqn:E.
    + apply String.eqb_eq in E. subst m. exfalso. apply Hnotin.
      apply numeric_cols_In. rewrite H. left. reflexivity.
    + apply (IH Hnd' H).
Qed.

Lemma trend_frame_preferred (src : trend_source) (ds : list (option date))
      (ks : list key) :
  lookup preferred (trend_frame src ds ks) = lookup preferred (t_cols src)
  /\ (In preferred (columns (trend_frame src ds ks))
      <-> In preferred (columns (t_cols src))).
Proof.
  unfold trend_frame. split.
  - rewrite !lookup_set_column_other; [reflexivity| | |];
      intros H; apply String.eqb_eq in H; discriminate.
  - rewrite !set_column_columns_In. split; [|auto].
    intros [H|[H|[H|H]]]; try assumption;
      apply String.eqb_eq in H; discriminate.
Qed.

Lemma lookup_Some_In (c : string) (df : frame) (col : column) :
  lookup c df = Some col -> In c (columns df).
Proof.
  induction df as [|[n c0] t IH]; simpl; [discriminate|].
  destruct (String.eqb n c) eqn:F.
  - apply String.eqb_eq in F. left. assumption.
  - intros H. right. apply IH. assumption.
Qed.

(** X13.  With distinct column names and dates that all parse, the trend
    aggregation raises TypeError exactly when the file has a column of the
    preferred name that is not numeric; in every other case it returns the
    weekly table. *)
Theorem trend_type_error_only_from_preferred_text_column (src : trend_source) :
  NoDup (columns (t_cols src)) ->
  has_garbage (t_date src) = false ->
  forallb is_date (t_date src) = true ->
  (weekly_trend_of src = Raise TypeError
   <-> exists col, lookup preferred (t_cols src) = Some col
                   /\ is_number col = false)
  /\ ((exists tw, weekly_trend_of src = Ok tw)
      \/ weekly_trend_of src = Raise TypeError).
Proof.
  intros Hnd Hg Hd. rewrite weekly_trend_of_char, Hg, Hd. cbv zeta.
  set (ks := map key_of_cell (t_date src)).
  set (ds := map cell_date (t_date src)).
  destruct (trend_frame_preferred src ds ks) as [Hl Hin].
  assert (Hnd' : NoDup (columns (trend_frame src ds ks))).
  { unfold trend_frame. repeat apply set_column_NoDup. exact Hnd. }
  set (df := trend_frame src ds ks) in *.
  unfold trend_metric_col.
  destruct (existsb (String.eqb preferred) (columns df)) eqn:E.
  - apply existsb_string_In in E.
    destruct (lookup_of_column preferred df E) as [col Hcol].
    unfold agg_trend. rewrite Hcol. rewrite Hl in Hcol.
    destruct col as [vs|vs|vs]; cbn [bind]; split; try (right; reflexivity);
      try (left; eauto).
    + split; [discriminate|]. intros [col [H N]].
      rewrite Hcol in H. injection H as <-. discriminate.
    + split; [intros _; eauto|reflexivity].
    + split; [intros _; eauto|reflexivity].
  - assert (Nin : ~ In preferred (columns (t_cols src))).
    { intros H. apply Hin in H. apply existsb_string_In in H. congruence. }
    destruct (numeric_cols df) as [|c rest] eqn:N.
    + exfalso. unfold df, trend_frame, int_column in N.
      destruct (numeric_cols_set_number "iso_week"
                  (map (fun z => Some (inject_Z z)) (map snd ks))
                  (set_column "iso_year"
                     (CNum (map (fun z => Some (inject_Z z)) (map fst ks)))
                     (set_column "date" (CDatetime ds) (t_cols src))))
        as [c [rest E']].
      rewrite E' in N. discriminate.
    + destruct (first_numeric_lookup df c rest Hnd' N) as [vs Hvs].
      unfold agg_trend. rewrite Hvs. cbn [bind]. split; [|left; eauto].
      split; [discriminate|]. intros [col [H _]].
      exfalso. apply Nin. exact (lookup_Some_In _ _ _ H).
Qed.

(** ** Missing dates *)

Lemma blank_is_no_date (cells : list date_cell) :
  In Blank cells -> forallb is_date cells = false.
Proof.
  induction cells as [|c t IH]; simpl; intros H; [destruct H|].
  destruct H as [->|H]; [reflexivity|].
  rewrite (IH H). apply andb_false_r.
Qed.

(** X15.  An empty timestamp in the reviews file, or an empty date in the
    trend file, ends the run in the integer cast error of astype(int),
    even when every other cell parses. *)
Theorem missing_dates_end_the_run
        (path_exists : string -> bool) (reg : registry)
        (reviews : list review) (src : trend_source) :
  (has_garbage (map r_at reviews) = false ->
   In Blank (map r_at reviews) ->
   main path_exists reg reviews src = Raise IntCastingNaN)
  /\ (forall wr, weekly_reviews reviews = Ok wr ->
                 has_garbage (t_date src) = false ->
                 In Blank (t_date src) ->
                 main path_exists reg reviews src = Raise IntCastingNaN).
Proof.
  split.
  - intros Hg Hb. unfold main, merged.
    rewrite weekly_reviews_char, Hg, (blank_is_no_date _ Hb). reflexivity.
  - intros wr Hwr Hg Hb. unfold main, merged.
    rewrite Hwr, weekly_trend_of_char, Hg, (blank_is_no_date _ Hb).
    reflexivity.
Qed.

(** ** Two joined weeks *)







(** ** Instances *)
Lemma isocalendar_bounds_witness :
  (1 <= isocal_week (mkDate 2021 1 1) <= 53
   /\ year (mkDate 2021 1 1) - 1 <= isocal_year (mkDate 2021 1 1)
      <= year (mkDate 2021 1 1) + 1
   /\ 1 <= snd (isocalendar (mkDate 2021 1 1)) <= 7)%Z.
Proof.
  apply isocalendar_bounds. reflexivity.
Defined.

Lemma merged_rows_increase_in_week_index_witness :
  StronglySorted (fun r r' => (week_index r < week_index r')%Z)
                 (j_rows (mkJoined (Some preferred) flat_scores)).
Proof.
  apply (merged_rows_increase_in_week_index named_reviews named_trend).
  - intros d [H|[H|[]]]; injection H as <-; reflexivity.
  - reflexivity.
Defined.


Lemma review_counts_partition_the_rows_witness :
  list_sum (map wr_review_count scen_weekly_reviews) = length scen_reviews
  /\ Forall (fun row => (1 <= wr_review_count row)%nat) scen_weekly_reviews.
Proof.
  apply review_counts_partition_the_rows. reflexivity.
Defined.

Lemma trend_type_error_only_from_preferred_text_column_witness :
  (weekly_trend_of named_trend = Raise TypeError
   <-> exists col, lookup preferred (t_cols named_trend) = Some col
                   /\ is_number col = false)
  /\ ((exists tw, weekly_trend_of named_trend = Ok tw)
      \/ weekly_trend_of named_trend = Raise TypeError).
Proof.
  apply trend_type_error_only_from_preferred_text_column.
  - repeat constructor; simpl; intros H;
      repeat (destruct H as [H|H]; [discriminate H|]); exact H.
  - reflexivity.
  - reflexivity.
Defined.


Section WeekBuckets.
Local Open Scope Z_scope.

Lemma dby_mono (a b : Z) :
  a < b -> days_before_year a + 364 <= days_before_year b.
Proof.
  intros H. unfold days_before_year. Z.div_mod_to_equations. lia.
Qed.

Lemma w1m_mono (a b : Z) : a <= b -> isoweek1monday a <= isoweek1monday b.
Proof.
  intros H. destruct (Z.eq_dec a b) as [->|Hne]; [lia|].
  assert (L : a < b) by lia. pose proof (dby_mono a b L).
  destruct (w1m_spec a) as [ka [_ Ba]].
  destruct (w1m_spec b) as [kb [_ Bb]]. lia.
Qed.

(** X6.  The ISO triple of a valid date gives its day back: the day is the
    Monday of week 1 of the ISO year plus 7 (week - 1) + (weekday - 1)
    days, and it lies in the span of that ISO year. *)
Theorem isocalendar_locates_the_week (d : date) :
  valid_date d = true ->
  ordinal d
  = isoweek1monday (isocal_year d) + 7 * (isocal_week d - 1)
    + (snd (isocalendar d) - 1)
  /\ isoweek1monday (isocal_year d) <= ordinal d
     < isoweek1monday (isocal_year d + 1).
Proof.
  intros V. pose proof (ordinal_bounds d V) as [Lo Hi].
  unfold isocal_week, isocal_year, isocalendar. cbv zeta.
  set (y := year d) in *. set (t := ordinal d) in *.
  destruct (w1m_spec y) as [k [Ek [Bk1 Bk2]]].
  destruct (w1m_spec (y + 1)) as [k1 [Ek1 [Bk11 Bk12]]].
  destruct (w1m_spec (y - 1)) as [k0 [Ek0 [Bk01 Bk02]]].
  destruct (w1m_spec (y + 2)) as [k2 [Ek2 [Bk21 Bk22]]].
  pose proof (dby_step y) as S1.
  pose proof (dby_step (y - 1)) as S0. replace (y - 1 + 1) with y in S0 by lia.
  pose proof (dby_step (y + 1)) as S2.
  replace (y + 1 + 1) with (y + 2) in S2 by lia.
  assert (L1 : 0 <= (if is_leap y then 1 else 0) <= 1)
    by (destruct (is_leap y); lia).
  assert (L0 : 0 <= (if is_leap (y - 1) then 1 else 0) <= 1)
    by (destruct (is_leap (y - 1)); lia).
  assert (L2 : 0 <= (if is_leap (y + 1) then 1 else 0) <= 1)
    by (destruct (is_leap (y + 1)); lia).
  set (W := isoweek1monday y) in *.
  set (W1 := isoweek1monday (y + 1)) in *.
  set (W0 := isoweek1monday (y - 1)) in *.
  set (W2 := isoweek1monday (y + 2)) in *.
  destruct ((t - W) / 7 <? 0) eqn:E1;
    [apply Z.ltb_lt in E1|apply Z.ltb_ge in E1].
  - cbn [fst snd]. replace (y - 1 + 1) with y by lia. fold W.
    Z.div_mod_to_equations. lia.
  - destruct ((52 <=? (t - W) / 7) && (W1 <=? t)) eqn:E2.
    + cbn [fst snd]. apply andb_true_iff in E2 as [E2 E3].
      apply Z.leb_le in E2. apply Z.leb_le in E3.
      replace (y + 1 + 1) with (y + 2) by lia. fold W2.
      Z.div_mod_to_equations. lia.
    + cbn [fst snd]. apply andb_false_iff in E2.
      rewrite Z.leb_gt, Z.leb_gt in E2. fold W1.
      Z.div_mod_to_equations. lia.
Qed.

Lemma week_block (d : date) :
  valid_date d = true ->
  exists k, isoweek1monday (isocal_year d) = 7 * k + 1
            /\ (ordinal d - 1) / 7 = k + isocal_week d - 1.
Proof.
  intros V. destruct (isocalendar_locates_the_week d V) as [E _].
  destruct (isocalendar_bounds d V) as [_ [_ Bd]].
  destruct (w1m_spec (isocal_year d)) as [k [Ek _]].
  exists k. split; [exact Ek|].
  rewrite E, Ek. Z.div_mod_to_equations. lia.
Qed.

(** X7.  Two valid dates get the same weekly key exactly when they lie in
    the same Monday-to-Sunday week. *)
Theorem same_key_iff_same_monday_week (d d' : date) :
  valid_date d = true ->
  valid_date d' = true ->
  ((isocal_year d, isocal_week d) = (isocal_year d', isocal_week d')
   <-> (ordinal d - 1) / 7 = (ordinal d' - 1) / 7).
Proof.
  intros V V'.
  destruct (week_block d V) as [k [Ek Q]].
  destruct (week_block d' V') as [k' [Ek' Q']].
  destruct (isocalendar_locates_the_week d V) as [_ [B1 B2]].
  destruct (isocalendar_locates_the_week d' V') as [_ [B1' B2']].
  split.
  - intros H. injection H as Hy Hw. rewrite Q, Q'.
    rewrite Hy in Ek. rewrite Hw. lia.
  - intros H.
    assert (Hy : isocal_year d = isocal_year d').
    { destruct (Z.lt_trichotomy (isocal_year d) (isocal_year d'))
        as [L|[E|G]]; [|exact E|]; exfalso.
      - pose proof (w1m_mono (isocal_year d + 1) (isocal_year d')
                             ltac:(lia)) as M.
        rewrite Ek' in *. Z.div_mod_to_equations. lia.
      - pose proof (w1m_mono (isocal_year d' + 1) (isocal_year d)
                             ltac:(lia)) as M.
        rewrite Ek in *. Z.div_mod_to_equations. lia. }
    f_equal; [exact Hy|]. rewrite Hy in Ek. lia.
Qed.

End WeekBuckets.

Lemma isocalendar_locates_the_week_witness :
  (ordinal (mkDate 2021 1 1)
   = isoweek1monday (isocal_year (mkDate 2021 1 1))
     + 7 * (isocal_week (mkDate 2021 1 1) - 1)
     + (snd (isocalendar (mkDate 2021 1 1)) - 1)
   /\ isoweek1monday (isocal_year (mkDate 2021 1 1))
      <= ordinal (mkDate 2021 1 1)
      < isoweek1monday (isocal_year (mkDate 2021 1 1) + 1))%Z.
Proof.
  apply isocalendar_locates_the_week. reflexivity.
Defined.

Lemma same_key_iff_same_monday_week_witness :
  (isocal_year (mkDate 2020 12 28), isocal_week (mkDate 2020 12 28))
  = (isocal_year (mkDate 2021 1 3), isocal_week (mkDate 2021 1 3))
  <-> ((ordinal (mkDate 2020 12 28) - 1) / 7
       = (ordinal (mkDate 2021 1 3) - 1) / 7)%Z.
Proof.
  apply same_key_iff_same_monday_week; reflexivity.
Defined.

(** ** The weeks of the joined table, from the raw rows *)

Lemma weekly_reviews_keys_In (reviews : list review) (wr : list weekly_review)
      (k : key) :
  weekly_reviews reviews = Ok wr ->
  (In k (map wr_key wr) <-> has_review_in k reviews).
Proof.
  intros H. unfold has_review_in.
  apply weekly_reviews_inv in H as [ks [_ [Hks ->]]].
  assert (Hlen : length ks = length (map r_score reviews)).
  { apply iso_keys_weeks in Hks.
    apply (f_equal (@length _)) in Hks. rewrite !length_map in *. lia. }
  rewrite agg_reviews_keys, group_keys_In.
  rewrite (map_fst_combine ks (map r_score reviews) Hlen).
  rewrite (iso_keys_In _ _ k Hks). split.
  - intros [d [Hin ->]]. apply in_map_iff in Hin as [r [Hr Hin]].
    exists r, d. auto.
  - intros [r [d [Hin [Hr ->]]]]. exists d. split; [|reflexivity].
    rewrite <- Hr. apply in_map. assumption.
Qed.

Lemma weekly_trend_keys_In (src : trend_source) (tw : trend_weekly) (k : key) :
  weekly_trend_of src = Ok tw ->
  (In k (map wt_key (tw_rows tw)) <-> has_trend_in k src).
Proof.
  intros H. unfold has_trend_in.
  apply weekly_trend_of_inv in H as [ks [_ [Hks [_ Hagg]]]].
  rewrite (agg_trend_keys _ _ _ _ Hagg), group_keys_In.
  apply iso_keys_In. assumption.
Qed.

(** X16.  The weeks of the joined table are exactly the ISO weeks that
    hold the timestamp of a review row and the date of a trend row. *)
Theorem joined_weeks_have_reviews_and_trend
        (reviews : list review) (src : trend_source) (j : joined) :
  merged reviews src = Ok j ->
  forall k, In k (map row_key (j_rows j))
            <-> has_review_in k reviews /\ has_trend_in k src.
Proof.
  intros H k. unfold merged in H.
  destruct (weekly_reviews reviews) as [wr|e] eqn:Hr; simpl in H;
    [|discriminate].
  destruct (weekly_trend_of src) as [tw|e] eqn:Ht; simpl in H; [|discriminate].
  injection H as <-. cbn [j_rows].
  rewrite merged_of_keys.
  rewrite (weekly_reviews_keys_In reviews wr k Hr).
  rewrite (weekly_trend_keys_In src tw k Ht). reflexivity.
Qed.

Lemma statistics_Ok_two_rows (m : list merged_row) (s : stats) :
  statistics m = Ok s -> (2 <= length m)%nat.
Proof.
  unfold statistics, pearsonr. cbv zeta.
  rewrite !length_map, Nat.eqb_refl. simpl negb. cbv iota.
  destruct (Nat.ltb_spec (length m) 2) as [Hlt|Hge]; [discriminate|].
  intros _. exact Hge.
Qed.

(** X17.  [main] returns only when two different ISO weeks each hold a
    review row and a trend row. *)
Theorem report_needs_two_common_weeks
        (path_exists : string -> bool) (reg : registry)
        (reviews : list review) (src : trend_source)
        (doc : document) (reg' : registry) :
  main path_exists reg reviews src = Ok (doc, reg') ->
  exists k1 k2,
    k1 <> k2
    /\ (has_review_in k1 reviews /\ has_trend_in k1 src)
    /\ (has_review_in k2 reviews /\ has_trend_in k2 src).
Proof.
  intros H. unfold main in H.
  destruct (merged reviews src) as [j|e] eqn:Hj; cbn [bind] in H;
    [|discriminate].
  destruct (statistics (j_rows j)) as [s|e] eqn:Hs; cbn [bind] in H;
    [|discriminate].
  clear H. apply statistics_Ok_two_rows in Hs.
  pose proof (joined_weeks_have_reviews_and_trend reviews src j Hj) as K.
  assert (Hnd : NoDup (map row_key (j_rows j))).
  { unfold merged in Hj.
    destruct (weekly_reviews reviews) as [wr|e] eqn:Hr; simpl in Hj;
      [|discriminate].
    destruct (weekly_trend_of src) as [tw|e] eqn:Ht; simpl in Hj;
      [|discriminate].
    injection Hj as <-. cbn [j_rows].
    apply sorted_keys_NoDup, merged_keys_sorted.
    - apply weekly_reviews_inv in Hr as [ks [_ [_ ->]]].
      rewrite agg_reviews_keys. apply group_keys_sorted.
    - apply weekly_trend_of_inv in Ht as [ks [_ [_ [_ Hagg]]]].
      rewrite (agg_trend_keys _ _ _ _ Hagg). apply group_keys_NoDup. }
  destruct (j_rows j) as [|a [|b t]]; simpl in Hs; try lia.
  exists (row_key a), (row_key b). split; [|split].
  - simpl in Hnd. inversion Hnd as [|? ? Hnotin _]; subst.
    intros E. apply Hnotin. left. symmetry. exact E.
  - apply K. left. reflexivity.
  - apply K. right. left. reflexivity.
Qed.

Lemma unparseable_dates_end_the_run_witness :
  main (fun _ => false) [] [mkReview Garbage (Some 5%Q)] scen_trend
  = Raise AttributeError.
Proof.
  apply (proj1 (unparseable_dates_end_the_run (fun _ => false) []
                  [mkReview Garbage (Some 5%Q)] scen_trend)).
  reflexivity.
Defined.

Lemma missing_dates_end_the_run_witness :
  main (fun _ => false) [] [mkReview Blank (Some 5%Q)] scen_trend
  = Raise IntCastingNaN.
Proof.
  apply (proj1 (missing_dates_end_the_run (fun _ => false) []
                  [mkReview Blank (Some 5%Q)] scen_trend)).
  - reflexivity.
  - left. reflexivity.
Defined.

Lemma joined_weeks_have_reviews_and_trend_witness :
  In (2024, 1)%Z (map row_key (j_rows (mkJoined (Some preferred) flat_scores)))
  <-> has_review_in (2024, 1)%Z named_reviews
      /\ has_trend_in (2024, 1)%Z named_trend.
Proof.
  apply (joined_weeks_have_reviews_and_trend named_reviews named_trend).
  reflexivity.
Defined.

Lemma report_needs_two_common_weeks_witness :
  exists k1 k2,
    k1 <> k2
    /\ (has_review_in k1 named_reviews /\ has_trend_in k1 named_trend)
    /\ (has_review_in k2 named_reviews /\ has_trend_in k2 named_trend).
Proof.
  apply (report_needs_two_common_weeks (fun _ => false) []
           named_reviews named_trend named_document []).
  reflexivity.
Defined.
